(** * Task lifecycle of lib/task/task.js

    A shallow embedding of the task container ([task.withContainer]), the
    audit wrapper ([auditing]) and the task runner ([run], [fault]) of
    src/lib/task/task.js, and the properties its specification states
    about them.

    Promises are modelled by explicit state passing over the process
    state (the shared [task._container] slot, the two output streams and
    [process.exitCode]); synchronous code may return or throw. *)

From Stdlib Require Import ZArith List String Bool Lia DecimalString.

Set Warnings "-register-all".
Import ListNotations.

Local Open Scope string_scope.
Local Open Scope list_scope.

(** ** JavaScript values *)

Module JS.

(** The values tasks resolve with and reject with: plain data.
    Numbers are the integral ones; objects are ordered lists of data
    properties (no accessors, no symbols, no methods of their own). *)
Inductive val : Type :=
| VUndefined
| VNull
| VBool (b : bool)
| VNum (n : Z)
| VStr (s : string)
| VObj (props : list (string * val)).

(** How a synchronous evaluation completes: with a value, or by throwing. *)
Inductive completion (A : Type) : Type :=
| Normal (a : A)
| Throw (e : val).
Arguments Normal {A} a.
Arguments Throw {A} e.

(** [x == null]: true of [null] and [undefined] only. *)
Definition looseEqNull (x : val) : bool :=
  match x with
  | VUndefined | VNull => true
  | _ => false
  end.

(** [x === true]. *)
Definition strictEqTrue (x : val) : bool :=
  match x with
  | VBool true => true
  | _ => false
  end.

Fixpoint lookup (key : string) (props : list (string * val)) : option val :=
  match props with
  | [] => None
  | (k, v) :: rest => if String.eqb k key then Some v else lookup key rest
  end.

Definition hasOwn (key : string) (props : list (string * val)) : bool :=
  match lookup key props with
  | Some _ => true
  | None => false
  end.

(** The value of [x.key] for a non-nullish [x]: the property when [x] is
    an object that has it, [undefined] otherwise. *)
Definition prop (x : val) (key : string) : val :=
  match x with
  | VObj props =>
      match lookup key props with
      | Some v => v
      | None => VUndefined
      end
  | _ => VUndefined
  end.

Definition TypeError (message : string) : val :=
  VObj [("name", VStr "TypeError"); ("message", VStr message)].

(** The functions of other modules that task.js calls, none of which is
    under src/: [inspect] of node's util, [serialize] of ../util/http,
    [merge] of ramda, the expression
    [Option.of(error).map(Problem.serializable).orNull()] of ../util/option
    and ../util/problem; and the runtime's conversions: the numeral of a
    number, the number a string stands for ([None] for [NaN]), and the
    string the [toString] an object inherits makes of it. *)
Class Collaborators : Type := {
  inspect : val -> string;
  serialize : val -> val;
  merge : val -> val -> val;
  serializableOrNull : val -> val;
  NumberToString : Z -> string;
  StringToNumber : string -> option Z;
  ObjectToString : list (string * val) -> string
}.

Section Conversions.
Context `{Collaborators}.

(** An object to a primitive.  The properties of an object are data, so a
    [toString] of its own is not callable and is passed over, and
    [valueOf], its own or the inherited one, yields no primitive: the
    conversion throws.  Without a [toString] of its own the inherited one
    answers. *)
Definition ToPrimitive (props : list (string * val)) : completion string :=
  if hasOwn "toString" props
  then Throw (TypeError "Cannot convert object to primitive value")
  else Normal (ObjectToString props).

(** The string a template literal makes of [x]. *)
Definition ToString (x : val) : completion string :=
  match x with
  | VUndefined => Normal "undefined"
  | VNull => Normal "null"
  | VBool true => Normal "true"
  | VBool false => Normal "false"
  | VNum n => Normal (NumberToString n)
  | VStr s => Normal s
  | VObj props => ToPrimitive props
  end.

(** The number [x] converts to, [None] for [NaN]. *)
Definition ToNumber (x : val) : completion (option Z) :=
  match x with
  | VUndefined => Normal None
  | VNull => Normal (Some 0%Z)
  | VBool true => Normal (Some 1%Z)
  | VBool false => Normal (Some 0%Z)
  | VNum n => Normal (Some n)
  | VStr s => Normal (StringToNumber s)
  | VObj props =>
      match ToPrimitive props with
      | Normal s => Normal (StringToNumber s)
      | Throw e => Throw e
      end
  end.

(** [x < n] for a number [n]: false when [x] converts to [NaN]. *)
Definition lessThan (x : val) (n : Z) : completion bool :=
  match ToNumber x with
  | Normal (Some m) => Normal (m <? n)%Z
  | Normal None => Normal false
  | Throw e => Throw e
  end.

End Conversions.

End JS.

Import JS.

(** ** Process state, outcomes and the two kinds of computation *)

(** A resource handle, named by the order in which it was opened. *)
Definition Db : Type := nat.

(** What [pkg.withDefaults({ db, crypto })] assembles around a handle. *)
Record Container : Type := { db : Db }.

Definition withDefaults (d : Db) : Container := {| db := d |}.

(** How a promise settles. *)
Inductive outcome : Type :=
| Resolved (value : val)
| Rejected (error : val).

(** The calls that leave the process, in the order they were made. *)
Inductive event : Type :=
| EvConnected (d : Db)
| EvConnectFailed (e : val)
| EvDestroy (d : Db)
| EvAuditLog (actor : val) (action : string) (target : val) (details : val)
| EvAuditSettled (o : outcome)
| EvStep (c : Container) (input : val)
| EvInvoke (label : string).

Record state : Type := {
  container : option Container;   (* task._container *)
  stdout : list string;           (* chunks written to process.stdout *)
  stderr : list string;           (* chunks written to process.stderr *)
  exitCode : option Z;            (* process.exitCode *)
  trace : list event
}.

Definition initial : state :=
  {| container := None; stdout := []; stderr := []; exitCode := None; trace := [] |}.

(** The status the process exits with when nothing else ends it. *)
Definition exitStatus (s : state) : Z :=
  match exitCode s with
  | Some c => c
  | None => 0%Z
  end.

Definition set_container (c : option Container) (s : state) : state :=
  {| container := c; stdout := stdout s; stderr := stderr s;
     exitCode := exitCode s; trace := trace s |}.

Definition set_exitCode (c : Z) (s : state) : state :=
  {| container := container s; stdout := stdout s; stderr := stderr s;
     exitCode := Some c; trace := trace s |}.

Definition record (e : event) (s : state) : state :=
  {| container := container s; stdout := stdout s; stderr := stderr s;
     exitCode := exitCode s; trace := trace s ++ [e] |}.

Inductive stream : Type := Stdout | Stderr.

Definition write_chunk (output : stream) (chunk : string) (s : state) : state :=
  match output with
  | Stdout =>
      {| container := container s; stdout := stdout s ++ [chunk]; stderr := stderr s;
         exitCode := exitCode s; trace := trace s |}
  | Stderr =>
      {| container := container s; stdout := stdout s; stderr := stderr s ++ [chunk];
         exitCode := exitCode s; trace := trace s |}
  end.

(** Synchronous code: returns or throws, and changes the state. *)
Definition sync (A : Type) : Type := state -> completion A * state.

(** A promise, driven from the state it is awaited in to its settlement. *)
Definition promise : Type := state -> outcome * state.

Definition ret {A : Type} (a : A) : sync A := fun s => (Normal a, s).

Definition throw {A : Type} (e : val) : sync A := fun s => (Throw e, s).

Definition bind {A B : Type} (m : sync A) (k : A -> sync B) : sync B :=
  fun s =>
    match m s with
    | (Normal a, s') => k a s'
    | (Throw e, s') => (Throw e, s')
    end.

Declare Scope sync_scope.
Delimit Scope sync_scope with sync.
Notation "x <- m ;; k" := (bind m (fun x => k))
  (at level 100, m at next level, right associativity) : sync_scope.
Notation "m ;;; k" := (bind m (fun _ => k))
  (at level 100, right associativity) : sync_scope.
Local Open Scope sync_scope.

(** An evaluation that does not touch the state. *)
Definition lift {A : Type} (c : completion A) : sync A := fun s => (c, s).

Definition modify (f : state -> state) : sync unit := fun s => (Normal tt, f s).

Definition gets {A : Type} (f : state -> A) : sync A := fun s => (Normal (f s), s).

(** [Promise.resolve(v)] and [Promise.reject(e)]. *)
Definition Promise_resolve (v : val) : promise := fun s => (Resolved v, s).
Definition Promise_reject (e : val) : promise := fun s => (Rejected e, s).

(** [p.then(onFulfilled, onRejected)]: the handler of the branch [p]
    settles on is called; the promise it returns is adopted, and what it
    throws rejects.  A handler that returns a plain value returns
    [Promise_resolve] of it. *)
Definition then_ (p : promise) (onFulfilled onRejected : val -> sync promise) : promise :=
  fun s =>
    let (o, s1) := p s in
    let handler := match o with
                   | Resolved v => onFulfilled v
                   | Rejected e => onRejected e
                   end in
    match handler s1 with
    | (Normal q, s2) => q s2
    | (Throw e, s2) => (Rejected e, s2)
    end.

(** Calls a function that returns a promise and awaits that promise at once. *)
Definition drive (m : sync promise) : sync outcome :=
  fun s =>
    match m s with
    | (Normal p, s1) => let (o, s2) := p s1 in (Normal o, s2)
    | (Throw e, s1) => (Throw e, s1)
    end.

(** [x.key]: a TypeError on [null] and [undefined]. *)
Definition Get (x : val) (key : string) : sync val :=
  if looseEqNull x
  then throw (TypeError ("Cannot read properties of " ++ (match x with VNull => "null" | _ => "undefined" end) ++ " (reading '" ++ key ++ "')")%string)
  else ret (prop x key).

(** ** The environment: the database, the audit sink *)

(** What the world outside the process answers, given the calls made so
    far: whether opening the handle throws, whether closing it throws, and
    whether [Audit.log] throws or how the promise it returns settles; and
    the boolean [output.write] returns for a chunk. *)
Class Environment : Type := {
  connect_throws : list event -> option val;
  destroy_throws : Db -> list event -> option val;
  Audit_log_answer : list event -> string -> val -> completion outcome;
  write_returns : stream -> string -> bool
}.

(** ** The source, function by function *)

Section Task.
Context {collab : Collaborators} {env : Environment}.

(** The handles opened so far; the next one is named by their number. *)
Definition opened (h : list event) : nat :=
  List.length (List.filter (fun e => match e with EvConnected _ => true | _ => false end) h).

(** [connect(config.get('default.database'))]. *)
Definition connect : sync Db :=
  fun s =>
    match connect_throws (trace s) with
    | Some e => (Throw e, record (EvConnectFailed e) s)
    | None => let d := opened (trace s) in (Normal d, record (EvConnected d) s)
    end.

(** [db.destroy()]. *)
Definition destroy (d : Db) : sync unit :=
  fun s =>
    match destroy_throws d (trace s) with
    | Some e => (Throw e, record (EvDestroy d) s)
    | None => (Normal tt, record (EvDestroy d) s)
    end.

(** [Audit.log(actor, action, target, details)] of the container's audit
    module: the call is made, and throws or returns a promise. *)
Definition Audit_log (c : Container) (actor : val) (action : string)
    (target details : val) : sync promise :=
  fun s =>
    let s' := record (EvAuditLog actor action target details) s in
    match Audit_log_answer (trace s) action details with
    | Throw e => (Throw e, s')
    | Normal o => (Normal (fun s1 => (o, record (EvAuditSettled o) s1)), s')
    end.

(** The [cleanup] closure of [task.withContainer] (lines 49-53):
    [task._container.db.destroy(); delete task._container; return next(inner)]. *)
Definition cleanup (next : val -> promise) (inner : val) : sync promise :=
  slot <- gets container;;
  match slot with
  | None => throw (TypeError "Cannot read properties of undefined (reading 'db')")
  | Some c =>
      destroy (db c);;;
      modify (set_container None);;;
      ret (next inner)
  end.

(** [task.withContainer(taskdef)(...args)] (lines 41-59).  The first branch
    is [needsContainer]: the slot is filled, the task definition is called
    with the container, and [cleanup] is chained on both branches of its
    result.  Otherwise the result is returned as it is. *)
Definition withContainer {A : Type} (taskdef : Container -> A -> sync promise)
    (args : A) : sync promise :=
  slot <- gets container;;
  match slot with
  | None =>
      d <- connect;;
      modify (set_container (Some (withDefaults d)));;;
      result <- taskdef (withDefaults d) args;;
      ret (then_ result (cleanup Promise_resolve) (cleanup Promise_reject))
  | Some c => taskdef c args
  end.

Definition newline : string := String (Ascii.ascii_of_nat 10) EmptyString.

(** [writeTo(output)(x)]: the template literal of [x] and a newline is made
    and written, and what [output.write] returned is returned. *)
Definition writeTo (output : stream) (x : val) : sync val :=
  text <- lift (ToString x);;
  modify (write_chunk output (text ++ newline)%string);;;
  ret (VBool (write_returns output (text ++ newline)%string)).

Definition writeToStderr : val -> sync val := writeTo Stderr.

(** [fault(error)] (lines 73-85). *)
Definition fault (error : val) : sync unit :=
  terse <- (if negb (looseEqNull error)
            then isProblem <- Get error "isProblem";;
                 if strictEqTrue isProblem
                 then httpCode <- Get error "httpCode";;
                      lift (lessThan httpCode 500)
                 else ret false
            else ret false);;
  (if terse : bool
   then message <- Get error "message";;
        writeToStderr message;;;
        problemDetails <- Get error "problemDetails";;
        if negb (looseEqNull problemDetails)
        then writeToStderr (VStr (inspect problemDetails));;; ret tt
        else ret tt
   else writeToStderr (VStr (inspect error));;; ret tt);;;
  modify (set_exitCode 1).

(** [auditLog] (lines 90-91). *)
Definition auditLog (action : string) (success : bool) (details : val) : sync promise :=
  withContainer
    (fun c '(action, success, details) =>
       Audit_log c VNull action VNull (merge (VObj [("success", VBool success)]) details))
    (action, success, details).

(** A task: a promise, or a function of no argument that makes a task. *)
Inductive Task : Type :=
| InFlight (p : promise)
| Producer (f : state -> completion Task * state).

(** The two handlers [auditing] chains on the task (lines 96-111). *)
Definition auditSuccess (action : string) (result : val) : sync promise :=
  logged <- auditLog action true result;;
  ret (then_ logged
         (fun _ => ret (Promise_resolve result))
         (fun auditError =>
            writeToStderr (VStr "Failed to audit-log task success message!");;;
            fault auditError;;;
            ret (Promise_resolve result))).

Definition auditFailure (action : string) (error : val) : sync promise :=
  logged <- auditLog action false (serializableOrNull error);;
  ret (then_ logged
         (fun _ => ret (Promise_reject error))
         (fun auditError =>
            writeToStderr (VStr "Failed to audit-log task failure message!");;;
            fault auditError;;;
            ret (Promise_reject error))).

(** [auditing(action, t)] (lines 93-112). *)
Fixpoint auditing (action : string) (t : Task) : sync promise :=
  match t with
  | Producer f => t' <- f;; auditing action t'
  | InFlight p => ret (then_ p (auditSuccess action) (auditFailure action))
  end.

(** [compose(writeTo(process.stdout), inspect, serialize)]. *)
Definition printResult (value : val) : sync promise :=
  written <- writeTo Stdout (VStr (inspect (serialize value)));;
  ret (Promise_resolve written).

(** [run(t)] (lines 116-118). *)
Fixpoint run (t : Task) : sync promise :=
  match t with
  | Producer f => t' <- f;; run t'
  | InFlight p =>
      ret (then_ p printResult (fun error => fault error;;; ret (Promise_resolve VUndefined)))
  end.

(** ** What the specification calls things *)

(** A task unwrapped until a promise is reached. *)
Fixpoint force (t : Task) : sync promise :=
  match t with
  | InFlight p => ret p
  | Producer f => t' <- f;; force t'
  end.

(** A producer that leaves a mark each time it is called. *)
Definition counted (label : string) (t : Task) : Task :=
  Producer (fun s => (Normal t, record (EvInvoke label) s)).

(** Whether the guard of [fault] holds: a problem with a status code below
    500.  The comparison may throw. *)
Definition userFacing (error : val) : completion bool :=
  if strictEqTrue (prop error "isProblem")
  then lessThan (prop error "httpCode") 500
  else Normal false.

(** The lines of the first branch of [fault]: the message, and the details
    when there are any. *)
Definition terseLines (error : val) : completion (list string) :=
  match ToString (prop error "message") with
  | Normal message =>
      Normal ((message ++ newline)%string
              :: (if looseEqNull (prop error "problemDetails")
                  then []
                  else [(inspect (prop error "problemDetails") ++ newline)%string]))
  | Throw x => Throw x
  end.

(** The lines [fault] writes for an error, or what it throws before it
    writes any. *)
Definition diagnostic (error : val) : completion (list string) :=
  match userFacing error with
  | Normal true => terseLines error
  | Normal false => Normal [(inspect error ++ newline)%string]
  | Throw x => Throw x
  end.


Fixpoint write_all (output : stream) (chunks : list string) (s : state) : state :=
  match chunks with
  | [] => s
  | chunk :: rest => write_all output rest (write_chunk output chunk s)
  end.

(** The arguments [auditing] gives [auditLog] for an outcome. *)
Definition auditSuccessFlag (o : outcome) : bool :=
  match o with
  | Resolved _ => true
  | Rejected _ => false
  end.

Definition auditDetails (o : outcome) : val :=
  match o with
  | Resolved result => result
  | Rejected error => serializableOrNull error
  end.

(** The record [auditLog] appends for an outcome. *)
Definition auditRecord (action : string) (o : outcome) : event :=
  EvAuditLog VNull action VNull
    (merge (VObj [("success", VBool (auditSuccessFlag o))]) (auditDetails o)).

(** The line [auditing] writes when the append of an outcome failed. *)
Definition auditFailureNote (o : outcome) : string :=
  match o with
  | Resolved _ => "Failed to audit-log task success message!"
  | Rejected _ => "Failed to audit-log task failure message!"
  end.

(** How an audited task settles, from the state [s3] in which the append
    settled with [appended]: when the append rejected, the note is written
    and [fault] is called, and what [fault] throws rejects the task. *)
Definition audited (o appended : outcome) (s3 : state) : outcome * state :=
  match appended with
  | Resolved _ => (o, s3)
  | Rejected auditError =>
      match diagnostic auditError with
      | Normal lines =>
          (o, set_exitCode 1
                (write_all Stderr ((auditFailureNote o ++ newline)%string :: lines) s3))
      | Throw x =>
          (Rejected x, write_chunk Stderr (auditFailureNote o ++ newline)%string s3)
      end
  end.

(** Connecting and closing the handle, as opposed to appending. *)
Definition lifecycle (e : event) : Prop :=
  match e with
  | EvConnected _ | EvDestroy _ => True
  | _ => False
  end.

(** The handles closed so far. *)
Definition closed (h : list event) : nat :=
  List.length (List.filter (fun e => match e with EvDestroy _ => true | _ => false end) h).

(** The state in which the owner registered its container. *)
Definition registered (s : state) : state :=
  set_container (Some (withDefaults (opened (trace s))))
    (record (EvConnected (opened (trace s))) s).

(** *** Chains of dependent steps *)

(** The domain work of one step: what it settles with, given the container
    and its input. *)
Definition step : Type := Container -> val -> outcome.

Definition work (w : step) (c : Container) (x : val) : promise :=
  fun s => (w c x, record (EvStep c x) s).

(** A chain of steps, each wrapped by [task.withContainer]: a step does its
    work and hands the value to the next one,
    [withContainer((c) => (x) => work(c, x).then(next))]. *)
Fixpoint chain (steps : list step) (x : val) : sync promise :=
  match steps with
  | [] => ret (Promise_resolve x)
  | w :: rest =>
      withContainer
        (fun c input =>
           ret (then_ (work w c input) (chain rest) (fun e => ret (Promise_reject e))))
        x
  end.

(** What the chain settles with when every step is given the container [c]. *)
Fixpoint chainOutcome (steps : list step) (c : Container) (x : val) : outcome :=
  match steps with
  | [] => Resolved x
  | w :: rest =>
      match w c x with
      | Resolved y => chainOutcome rest c y
      | Rejected e => Rejected e
      end
  end.

(** The steps that run, in order: those up to the first that fails. *)
Fixpoint chainEvents (steps : list step) (c : Container) (x : val) : list event :=
  match steps with
  | [] => []
  | w :: rest =>
      EvStep c x ::
      match w c x with
      | Resolved y => chainEvents rest c y
      | Rejected _ => []
      end
  end.

Fixpoint record_all (events : list event) (s : state) : state :=
  match events with
  | [] => s
  | e :: rest => record_all rest (record e s)
  end.

(** The calls an audited task makes once the inner task has settled with
    [o] in [s1]: with a container registered, the append and, when the call
    returned, its settlement; with the slot empty, the failed opening of
    the handle, or its opening, the append, its settlement and the closing
    of the handle. *)
Definition auditAttempt (action : string) (o : outcome) (s1 : state) : list event :=
  match container s1 with
  | Some _ =>
      auditRecord action o
      :: match Audit_log_answer (trace s1) action
                 (merge (VObj [("success", VBool (auditSuccessFlag o))]) (auditDetails o))
         with
         | Normal answered => [EvAuditSettled answered]
         | Throw _ => []
         end
  | None =>
      match connect_throws (trace s1) with
      | Some e => [EvConnectFailed e]
      | None =>
          EvConnected (opened (trace s1))
          :: auditRecord action o
          :: match Audit_log_answer (trace (registered s1)) action
                     (merge (VObj [("success", VBool (auditSuccessFlag o))])
                        (auditDetails o))
             with
             | Normal answered =>
                 [EvAuditSettled answered; EvDestroy (opened (trace s1))]
             | Throw _ => []
             end
      end
  end.

(** *** Chains of steps that are promises of any kind *)





(** *** Sentences of the specification, as it words them *)


(** A task that rejects is reported by the runner, which sets the exit
    code to 1. *)
Definition everyRejectionReported (t : Task) (s : state) : Prop :=
  forall e s1,
    drive (force t) s = (Normal (Rejected e), s1) ->
    exists o sf,
      drive (run t) s = (Normal o, sf)
      /\ exitCode sf = Some 1%Z.

(** A failure to construct the context is the failure of the task: the
    invocation gives a task, which rejects with the error. *)
Definition constructionFailureIsTaskFailure {A : Type}
    (taskdef : Container -> A -> sync promise) (args : A) (s : state) (e : val) : Prop :=
  container s = None ->
  connect_throws (trace s) = Some e ->
  exists p s' sf,
    withContainer taskdef args s = (Normal p, s')
    /\ p s' = (Rejected e, sf)
    /\ container sf = None.


(** The audited task settles as the task alone does. *)
Definition auditingIsTransparent (action : string) (t : Task) (s : state) : Prop :=
  forall o s1,
    drive (force t) s = (Normal o, s1) ->
    exists sf, drive (auditing action t) s = (Normal o, sf).

(** An audit append that fails after the task succeeded leaves the exit
    status as the task left it. *)
Definition exitStatusSurvivesAuditFailure (action : string) (t : Task) (s : state) : Prop :=
  forall v s1 q s2 auditError s3,
    drive (force t) s = (Normal (Resolved v), s1) ->
    auditLog action true v s1 = (Normal q, s2) ->
    q s2 = (Rejected auditError, s3) ->
    exists sf,
      drive (auditing action t) s = (Normal (Resolved v), sf)
      /\ exitStatus sf = exitStatus s1.

(** An exception of [db.destroy] during the owner's teardown does not
    override the outcome of the chain. *)
Definition teardownExceptionContained {A : Type}
    (taskdef : Container -> A -> sync promise) (args : A) (s : state) : Prop :=
  forall result s2 o s3 c x,
    container s = None ->
    connect_throws (trace s) = None ->
    taskdef (withDefaults (opened (trace s))) args (registered s) = (Normal result, s2) ->
    result s2 = (o, s3) ->
    container s3 = Some c ->
    destroy_throws (db c) (trace s3) = Some x ->
    exists sf, drive (withContainer taskdef args) s = (Normal o, sf).

(** *** The rest of the module, and how its callers compose it *)

(** [task.noop] (line 60). *)
Definition noop : promise := Promise_resolve VNull.

(** A producer around a call that returns a promise, [() => f(...args)]. *)
Definition deferred (call : sync promise) : Task :=
  Producer
    (fun s =>
       match call s with
       | (Normal p, s') => (Normal (InFlight p), s')
       | (Throw e, s') => (Throw e, s')
       end).

(** [run(auditing(action, t))]. *)
Definition runAudited (action : string) (t : Task) : sync promise :=
  p <- auditing action t;; run (InFlight p).

(** The state in which the append made by an owning [auditLog] has settled. *)
Definition appendedBy (action : string) (success : bool) (details : val)
    (answered : outcome) (s : state) : state :=
  record (EvAuditSettled answered)
    (record (EvAuditLog VNull action VNull
               (merge (VObj [("success", VBool success)]) details))
       (registered s)).

(** The calls of [Audit.log] made so far. *)
Definition appends (h : list event) : nat :=
  List.length
    (List.filter (fun e => match e with EvAuditLog _ _ _ _ => true | _ => false end) h).

End Task.

(** ** Concrete collaborators, environments and tasks *)

Definition plainInspect (x : val) : string :=
  match x with
  | VUndefined => "undefined"
  | VNull => "null"
  | VBool true => "true"
  | VBool false => "false"
  | VNum n => NilZero.string_of_int (Z.to_int n)
  | VStr s => ("'" ++ s ++ "'")%string
  | VObj _ => "[Object]"
  end.

(** The properties of the right object after those of the left one it
    does not have. *)
Definition plainMerge (l r : val) : val :=
  match l, r with
  | VObj a, VObj b => VObj (List.filter (fun kv => negb (hasOwn (fst kv) b)) a ++ b)
  | _, _ => l
  end.

(** Decimal numerals only. *)
Definition decimalToNumber (s : string) : option Z :=
  if String.eqb s "" then Some 0%Z
  else option_map Z.of_int (NilZero.int_of_string s).

Definition plain : Collaborators :=
  {| inspect := plainInspect;
     serialize := fun x => x;
     merge := plainMerge;
     serializableOrNull := fun error =>
       if looseEqNull error then VNull
       else VObj [("message", prop error "message"); ("code", prop error "httpCode")];
     NumberToString := fun n => NilZero.string_of_int (Z.to_int n);
     StringToNumber := decimalToNumber;
     ObjectToString := fun _ => "[object Object]" |}.

Definition auditOutage : val := VObj [("message", VStr "audit table is locked")].
Definition connectionRefused : val := VObj [("message", VStr "connection refused")].
Definition handleStuck : val := VObj [("message", VStr "pool is draining")].

(** Everything outside the process works. *)
Definition calm : Environment :=
  {| connect_throws := fun _ => None;
     destroy_throws := fun _ _ => None;
     Audit_log_answer := fun _ _ _ => Normal (Resolved VUndefined);
     write_returns := fun _ _ => true |}.

(** The audit sink rejects every append. *)
Definition auditDown : Environment :=
  {| connect_throws := fun _ => None;
     destroy_throws := fun _ _ => None;
     Audit_log_answer := fun _ _ _ => Normal (Rejected auditOutage);
     write_returns := fun _ _ => true |}.

(** The database cannot be opened. *)
Definition noDatabase : Environment :=
  {| connect_throws := fun _ => Some connectionRefused;
     destroy_throws := fun _ _ => None;
     Audit_log_answer := fun _ _ _ => Normal (Resolved VUndefined);
     write_returns := fun _ _ => true |}.

(** Closing the handle throws. *)
Definition stuckHandle : Environment :=
  {| connect_throws := fun _ => None;
     destroy_throws := fun _ _ => Some handleStuck;
     Audit_log_answer := fun _ _ _ => Normal (Resolved VUndefined);
     write_returns := fun _ _ => true |}.

Definition invalidInput : val :=
  VObj [("isProblem", VBool true); ("httpCode", VNum 400);
        ("message", VStr "Invalid input")].

Definition invalidField : val :=
  VObj [("isProblem", VBool true); ("httpCode", VNum 400);
        ("message", VStr "Invalid input");
        ("problemDetails", VObj [("field", VStr "email")])].

Definition internalProblem : val :=
  VObj [("isProblem", VBool true); ("httpCode", VNum 500);
        ("message", VStr "Bad gateway")].

Definition succeeding : Task := InFlight (Promise_resolve (VStr "done")).
Definition failing : Task := InFlight (Promise_reject invalidInput).

(** A task definition whose task resolves with its argument. *)
Definition echo (c : Container) (x : val) : sync promise := ret (Promise_resolve x).

(** Steps of a chain: one that adds one, one that refuses its input. *)
Definition increment : step :=
  fun _ x => match x with VNum n => Resolved (VNum (n + 1)) | _ => Rejected invalidInput end.
Definition refuse : step := fun _ _ => Rejected invalidInput.

(** A task definition that throws, a producer that throws, and a problem
    without a status code. *)
Definition explode (c : Container) (x : val) : sync promise := throw invalidInput.
Definition crashing : Task := Producer (fun s => (Throw handleStuck, s)).
Definition codeless : val :=
  VObj [("isProblem", VBool true); ("message", VStr "No code")].

(** A problem whose status code is an object with a [toString] of its own,
    a task that rejects with it, and a sink that rejects appends with it. *)
Definition unreadableCode : val :=
  VObj [("isProblem", VBool true);
        ("httpCode", VObj [("toString", VNum 1)]);
        ("message", VStr "Unreadable")].

Definition confusing : Task := InFlight (Promise_reject unreadableCode).

(** ** Properties *)

Section Properties.
Context {collab : Collaborators} {env : Environment}.

(** *** Basic facts *)

Lemma stderr_write_all (chunks : list string) (s : state) :
  stderr (write_all Stderr chunks s) = stderr s ++ chunks.
Proof.
  revert s. induction chunks as [|c chunks IH]; intros s; cbn [write_all].
  - now rewrite app_nil_r.
  - rewrite IH. simpl. now rewrite <- app_assoc.
Qed.

Lemma write_all_Stderr_frame (chunks : list string) (s : state) :
  stdout (write_all Stderr chunks s) = stdout s
  /\ exitCode (write_all Stderr chunks s) = exitCode s
  /\ container (write_all Stderr chunks s) = container s
  /\ trace (write_all Stderr chunks s) = trace s.
Proof.
  revert s. induction chunks as [|c chunks IH]; intros s; cbn [write_all].
  - repeat split.
  - destruct (IH (write_chunk Stderr c s)) as (H1 & H2 & H3 & H4).
    rewrite H1, H2, H3, H4. repeat split.
Qed.

Lemma trace_record_all (events : list event) (s : state) :
  trace (record_all events s) = trace s ++ events.
Proof.
  revert s. induction events as [|e events IH]; intros s; cbn [record_all].
  - now rewrite app_nil_r.
  - rewrite IH. simpl. now rewrite <- app_assoc.
Qed.

Lemma container_record_all (events : list event) (s : state) :
  container (record_all events s) = container s.
Proof.
  revert s. induction events as [|e events IH]; intros s; cbn [record_all].
  - reflexivity.
  - now rewrite IH.
Qed.

Lemma record_all_frame (events : list event) (s : state) :
  stdout (record_all events s) = stdout s
  /\ stderr (record_all events s) = stderr s
  /\ exitCode (record_all events s) = exitCode s.
Proof.
  revert s. induction events as [|e events IH]; intros s; cbn [record_all].
  - repeat split.
  - destruct (IH (record e s)) as (H1 & H2 & H3). rewrite H1, H2, H3. repeat split.
Qed.

Lemma opened_app (h1 h2 : list event) : opened (h1 ++ h2) = opened h1 + opened h2.
Proof. unfold opened. now rewrite filter_app, length_app. Qed.


Lemma chainEvents_lifecycle (steps : list step) (c : Container) (x : val) :
  opened (chainEvents steps c x) = 0 /\ closed (chainEvents steps c x) = 0.
Proof.
  revert x. induction steps as [|w rest IH]; intros x; cbn [chainEvents].
  - split; reflexivity.
  - destruct (w c x) as [y|e].
    + destruct (IH y) as [Ho Hc]. split; [exact Ho | exact Hc].
    + split; reflexivity.
Qed.

(** *** The conversions and [fault] *)



(** [fault] writes the diagnostic and sets the exit code, or throws what
    the conversions throw before anything is written. *)
Lemma fault_runs (error : val) (s : state) :
  fault error s =
    match diagnostic error with
    | Normal lines => (Normal tt, set_exitCode 1 (write_all Stderr lines s))
    | Throw x => (Throw x, s)
    end.
Proof.
  unfold fault, diagnostic, userFacing, terseLines, writeToStderr, writeTo.
  unfold bind, Get, lift, modify, ret.
  destruct error; simpl; try reflexivity.
  destruct (strictEqTrue _); simpl; [|reflexivity].
  destruct (lessThan _ _) as [[|]|x]; simpl; try reflexivity.
  destruct (ToString _) as [message|x]; simpl; [|reflexivity].
  destruct (looseEqNull _); reflexivity.
Qed.


(** Induction on tasks: a producer's task is smaller than the producer. *)
Lemma Task_induction (P : Task -> Prop) :
  (forall p, P (InFlight p)) ->
  (forall f, (forall s t' s', f s = (Normal t', s') -> P t') -> P (Producer f)) ->
  forall t, P t.
Proof.
  intros Hp Hf. fix IH 1. intros [p|f].
  - apply Hp.
  - apply Hf. intros s t' s' E.
    destruct (f s) as [[t0|e] s0] eqn:E0; [|discriminate].
    injection E as <- <-. apply IH.
Qed.

Lemma run_force (t : Task) (s : state) :
  run t s = (p <- force t;; run (InFlight p)) s.
Proof.
  revert s. induction t as [p|f IH] using Task_induction; intros s.
  - reflexivity.
  - cbn [run force]. unfold bind.
    destruct (f s) as [[t'|e] s'] eqn:E; [|reflexivity].
    exact (IH _ _ _ E s').
Qed.

Lemma auditing_force (action : string) (t : Task) (s : state) :
  auditing action t s = (p <- force t;; auditing action (InFlight p)) s.
Proof.
  revert s. induction t as [p|f IH] using Task_induction; intros s.
  - reflexivity.
  - cbn [auditing force]. unfold bind.
    destruct (f s) as [[t'|e] s'] eqn:E; [|reflexivity].
    exact (IH _ _ _ E s').
Qed.

(** A task that settles on its own: the promise it unwraps to, and the
    state the unwrapping leaves. *)
Lemma settles_inv (t : Task) (s : state) (o : outcome) (s1 : state) :
  drive (force t) s = (Normal o, s1) ->
  exists p s0, force t s = (Normal p, s0) /\ p s0 = (o, s1).
Proof.
  unfold drive. destruct (force t s) as [[p|e] s0]; [|discriminate].
  destruct (p s0) as [o' s'] eqn:E. intros [= <- <-]. now exists p, s0.
Qed.

(** *** The container, step by step *)

(** [cleanup] with a registered container: the handle is closed, and only
    when that returns is the slot cleared and the outcome passed on. *)
Lemma cleanup_registered (next : val -> promise) (inner : val) (s : state)
    (c : Container) :
  container s = Some c ->
  cleanup next inner s =
    match destroy_throws (db c) (trace s) with
    | Some x => (Throw x, record (EvDestroy (db c)) s)
    | None => (Normal (next inner), set_container None (record (EvDestroy (db c)) s))
    end.
Proof.
  intros Hs. unfold cleanup, bind, gets. rewrite Hs. unfold destroy.
  destruct (destroy_throws (db c) (trace s)); reflexivity.
Qed.

(** An owning invocation, from the empty slot to the settlement of the
    promise it returns. *)
Lemma withContainer_owner {A : Type} (taskdef : Container -> A -> sync promise)
    (args : A) (s : state) (result : promise) (s2 : state) (o : outcome)
    (s3 : state) (c : Container) :
  container s = None ->
  connect_throws (trace s) = None ->
  taskdef (withDefaults (opened (trace s))) args (registered s) = (Normal result, s2) ->
  result s2 = (o, s3) ->
  container s3 = Some c ->
  drive (withContainer taskdef args) s =
    match destroy_throws (db c) (trace s3) with
    | Some x => (Normal (Rejected x), record (EvDestroy (db c)) s3)
    | None => (Normal o, set_container None (record (EvDestroy (db c)) s3))
    end.
Proof.
  intros Hslot Hconn Hdef Hres Hc.
  unfold drive, withContainer, bind, gets. rewrite Hslot.
  unfold connect. rewrite Hconn. unfold modify. fold (registered s).
  rewrite Hdef. unfold ret, then_. rewrite Hres.
  destruct o as [v|e]; rewrite (cleanup_registered _ _ _ _ Hc);
    destruct (destroy_throws (db c) (trace s3)); reflexivity.
Qed.

(** An invocation that finds a container registered is the task
    definition applied to it. *)
Lemma withContainer_dependent {A : Type} (taskdef : Container -> A -> sync promise)
    (args : A) (s : state) (c : Container) :
  container s = Some c ->
  withContainer taskdef args s = taskdef c args s.
Proof.
  intros Hslot. unfold withContainer, bind, gets. now rewrite Hslot.
Qed.

(** A chain invoked with a container registered: it returns at once, and
    the promise it returns runs its steps with that container and neither
    opens nor closes anything. *)
Lemma chain_dependent (steps : list step) (c : Container) :
  forall (x : val) (s : state),
    container s = Some c ->
    exists p,
      chain steps x s = (Normal p, s)
      /\ forall s', container s' = Some c ->
           p s' = (chainOutcome steps c x, record_all (chainEvents steps c x) s').
Proof.
  induction steps as [|w rest IH]; intros x s Hs.
  - exists (Promise_resolve x). split; [reflexivity|]. intros s' _. reflexivity.
  - cbn [chain]. rewrite (withContainer_dependent _ _ _ _ Hs). unfold ret at 1.
    eexists. split; [reflexivity|].
    intros s' Hs'. unfold then_, work. cbn [chainOutcome chainEvents record_all].
    destruct (w c x) as [y|e].
    + destruct (IH y (record (EvStep c x) s') Hs') as (p & Hp & Hrun).
      rewrite Hp. apply Hrun. exact Hs'.
    + reflexivity.
Qed.

(** One owning chain, from the empty slot to its settlement. *)
Lemma chain_owner (w : step) (rest : list step) (x : val) (s : state) :
  container s = None ->
  connect_throws (trace s) = None ->
  (forall d h, destroy_throws d h = None) ->
  let c := withDefaults (opened (trace s)) in
  exists sf,
    drive (chain (w :: rest) x) s = (Normal (chainOutcome (w :: rest) c x), sf)
    /\ trace sf = trace s ++ [EvConnected (db c)]
                  ++ chainEvents (w :: rest) c x ++ [EvDestroy (db c)]
    /\ container sf = None
    /\ stdout sf = stdout s /\ stderr sf = stderr s /\ exitCode sf = exitCode s.
Proof.
  intros Hslot Hconn Hdestroy c.
  assert (Hreg : container (registered s) = Some c) by reflexivity.
  destruct (chain_dependent (w :: rest) c x (registered s) Hreg) as (p & Hp & Hrun).
  cbn [chain] in Hp. rewrite (withContainer_dependent _ _ _ _ Hreg) in Hp.
  specialize (Hrun _ Hreg).
  assert (Hc3 : container (record_all (chainEvents (w :: rest) c x) (registered s)) = Some c)
    by now rewrite container_record_all.
  eexists. split.
  - cbn [chain]. rewrite (withContainer_owner _ _ _ _ _ _ _ _ Hslot Hconn Hp Hrun Hc3).
    rewrite Hdestroy. reflexivity.
  - cbn [trace set_container record container stdout stderr exitCode].
    rewrite trace_record_all. cbn [trace registered set_container record].
    destruct (record_all_frame (chainEvents (w :: rest) c x) (registered s))
      as (H1 & H2 & H3).
    rewrite H1, H2, H3. repeat rewrite <- app_assoc. repeat split.
Qed.

(** *** Chains of any steps *)





(** *** The audit wrapper, step by step *)

(** When the inner promise settles with [o] and the call of [auditLog]
    returns a promise that settles with [appended], the audited promise
    settles as [audited] describes. *)
Lemma audited_settles (action : string) (p : promise) (s : state)
    (o : outcome) (s1 : state) (q : promise) (s2 : state)
    (appended : outcome) (s3 : state) :
  p s = (o, s1) ->
  auditLog action (auditSuccessFlag o) (auditDetails o) s1 = (Normal q, s2) ->
  q s2 = (appended, s3) ->
  drive (auditing action (InFlight p)) s
    = (Normal (fst (audited o appended s3)), snd (audited o appended s3)).
Proof.
  intros Hp Hlog Hq.
  unfold drive. cbn [auditing ret]. unfold then_. rewrite Hp.
  destruct o as [result|error]; cbn [auditSuccessFlag auditDetails] in Hlog.
  - unfold auditSuccess, bind at 1. rewrite Hlog. unfold ret at 1. cbv beta iota.
    unfold then_. rewrite Hq.
    destruct appended as [x|auditError]; [reflexivity|].
    unfold writeToStderr, writeTo. unfold bind, lift, modify, ret.
    cbn [ToString]. cbv beta iota.
    rewrite fault_runs. unfold audited. cbn [auditFailureNote].
    destruct (diagnostic auditError); reflexivity.
  - unfold auditFailure, bind at 1. rewrite Hlog. unfold ret at 1. cbv beta iota.
    unfold then_. rewrite Hq.
    destruct appended as [x|auditError]; [reflexivity|].
    unfold writeToStderr, writeTo. unfold bind, lift, modify, ret.
    cbn [ToString]. cbv beta iota.
    rewrite fault_runs. unfold audited. cbn [auditFailureNote].
    destruct (diagnostic auditError); reflexivity.
Qed.

(** The same for a task that has to be unwrapped first. *)
Lemma audited_task_settles (action : string) (t : Task) (s : state)
    (o : outcome) (s1 : state) (q : promise) (s2 : state)
    (appended : outcome) (s3 : state) :
  drive (force t) s = (Normal o, s1) ->
  auditLog action (auditSuccessFlag o) (auditDetails o) s1 = (Normal q, s2) ->
  q s2 = (appended, s3) ->
  drive (auditing action t) s
    = (Normal (fst (audited o appended s3)), snd (audited o appended s3)).
Proof.
  intros Ht Hlog Hq.
  destruct (settles_inv _ _ _ _ Ht) as (p & s0 & Hforce & Hp).
  rewrite <- (audited_settles action _ _ _ _ _ _ _ _ Hp Hlog Hq).
  unfold drive. rewrite auditing_force. unfold bind. now rewrite Hforce.
Qed.

(** When the call of [auditLog] throws, the handler of [auditing] throws,
    and the audited task rejects with what was thrown. *)
Lemma audited_task_thrown (action : string) (t : Task) (s : state)
    (o : outcome) (s1 : state) (e : val) (s2 : state) :
  drive (force t) s = (Normal o, s1) ->
  auditLog action (auditSuccessFlag o) (auditDetails o) s1 = (Throw e, s2) ->
  drive (auditing action t) s = (Normal (Rejected e), s2).
Proof.
  intros Ht Hlog.
  destruct (settles_inv _ _ _ _ Ht) as (p & s0 & Hforce & Hp).
  unfold drive. rewrite auditing_force. unfold bind at 1. rewrite Hforce.
  cbn [auditing ret]. unfold then_. rewrite Hp.
  destruct o as [result|error]; cbn [auditSuccessFlag auditDetails] in Hlog.
  - unfold auditSuccess, bind. now rewrite Hlog.
  - unfold auditFailure, bind. now rewrite Hlog.
Qed.

(** What the audit handlers leave alone, and what they do when the append
    resolved or its error can be reported. *)
Lemma audited_frame (o appended : outcome) (s3 : state) :
  trace (snd (audited o appended s3)) = trace s3
  /\ container (snd (audited o appended s3)) = container s3
  /\ stdout (snd (audited o appended s3)) = stdout s3.
Proof.
  unfold audited. destruct appended as [x|auditError]; [repeat split|].
  destruct (diagnostic auditError) as [lines|x]; [|repeat split].
  cbn [snd trace container stdout set_exitCode].
  destruct (write_all_Stderr_frame ((auditFailureNote o ++ newline)%string :: lines) s3)
    as (-> & _ & -> & ->).
  repeat split.
Qed.

Lemma audited_reported (o : outcome) (auditError : val) (lines : list string)
    (s3 : state) :
  diagnostic auditError = Normal lines ->
  fst (audited o (Rejected auditError) s3) = o
  /\ stderr (snd (audited o (Rejected auditError) s3))
     = stderr s3 ++ (auditFailureNote o ++ newline)%string :: lines
  /\ exitCode (snd (audited o (Rejected auditError) s3)) = Some 1%Z.
Proof.
  intros Hd. unfold audited. rewrite Hd.
  cbn [fst snd stderr exitCode set_exitCode]. rewrite stderr_write_all. repeat split.
Qed.

(** [auditLog], with the slot read and the handle opened. *)
Lemma auditLog_unfold (action : string) (success : bool) (details : val) (s1 : state) :
  auditLog action success details s1 =
    match container s1 with
    | Some c =>
        Audit_log c VNull action VNull
          (merge (VObj [("success", VBool success)]) details) s1
    | None =>
        match connect_throws (trace s1) with
        | Some e => (Throw e, record (EvConnectFailed e) s1)
        | None =>
            match Audit_log (withDefaults (opened (trace s1))) VNull action VNull
                    (merge (VObj [("success", VBool success)]) details) (registered s1)
            with
            | (Normal result, s2) =>
                (Normal (then_ result (cleanup Promise_resolve) (cleanup Promise_reject)),
                 s2)
            | (Throw x, s2) => (Throw x, s2)
            end
        end
    end.
Proof.
  unfold auditLog, withContainer, bind, gets.
  destruct (container s1); [reflexivity|].
  unfold connect. destruct (connect_throws (trace s1)); [reflexivity|].
  unfold modify. fold (registered s1).
  destruct (Audit_log _ _ _ _ _ _) as [[result|x] s2]; reflexivity.
Qed.

(** [auditLog] writes to neither stream, leaves the exit code alone, and
    adds to the trace what [auditAttempt] lists. *)
Lemma auditLog_settles (action : string) (o : outcome)
    (s1 : state) (q : promise) (s2 : state) (appended : outcome) (s3 : state) :
  auditLog action (auditSuccessFlag o) (auditDetails o) s1 = (Normal q, s2) ->
  q s2 = (appended, s3) ->
  trace s3 = trace s1 ++ auditAttempt action o s1
  /\ In (auditRecord action o) (auditAttempt action o s1)
  /\ stdout s3 = stdout s1 /\ stderr s3 = stderr s1 /\ exitCode s3 = exitCode s1.
Proof.
  rewrite auditLog_unfold. unfold auditAttempt, auditRecord.
  destruct (container s1) as [c|] eqn:Hslot.
  - unfold Audit_log. destruct (Audit_log_answer _ _ _) as [answered|e]; [|discriminate].
    intros [= <- <-] [= <- <-]. cbn. rewrite <- app_assoc. cbn. repeat split. now left.
  - destruct (connect_throws _) as [e|]; [discriminate|].
    unfold Audit_log.
    destruct (Audit_log_answer _ _ _) as [answered|e]; [|discriminate].
    intros [= <- <-]. unfold then_. intros Hq.
    destruct answered as [v|x];
      rewrite cleanup_registered with (c := withDefaults (opened (trace s1))) in Hq
        by reflexivity;
      cbn [trace record db withDefaults] in Hq;
      destruct (destroy_throws _ _); injection Hq as <- <-; cbn;
      repeat (rewrite <- app_assoc; cbn [app]); repeat split; right; now left.
Qed.

Lemma auditLog_throws (action : string) (o : outcome)
    (s1 : state) (e : val) (s2 : state) :
  auditLog action (auditSuccessFlag o) (auditDetails o) s1 = (Throw e, s2) ->
  trace s2 = trace s1 ++ auditAttempt action o s1
  /\ ((container s1 <> None \/ connect_throws (trace s1) = None) ->
      In (auditRecord action o) (auditAttempt action o s1)).
Proof.
  rewrite auditLog_unfold. unfold auditAttempt, auditRecord.
  destruct (container s1) as [c|] eqn:Hslot.
  - unfold Audit_log. destruct (Audit_log_answer _ _ _) as [answered|x]; [discriminate|].
    intros [= <- <-]. cbn. split; [reflexivity|]. intros _. now left.
  - destruct (connect_throws _) as [x|].
    + intros [= <- <-]. split; [reflexivity|]. intros [H|H]; [now elim H|discriminate].
    + unfold Audit_log.
      destruct (Audit_log_answer _ _ _) as [answered|x]; [discriminate|].
      intros [= <- <-]. cbn. rewrite <- app_assoc. cbn.
      split; [reflexivity|]. intros _. right. now left.
Qed.

(** An append made by an [auditLog] that owns its container, from the
    empty slot to the settlement of the promise it returns. *)
Lemma auditLog_owner (action : string) (success : bool) (details : val)
    (s1 : state) (answered : outcome) :
  container s1 = None ->
  connect_throws (trace s1) = None ->
  Audit_log_answer (trace (registered s1)) action
    (merge (VObj [("success", VBool success)]) details) = Normal answered ->
  drive (auditLog action success details) s1 =
    match destroy_throws (opened (trace s1))
            (trace (appendedBy action success details answered s1)) with
    | Some x =>
        (Normal (Rejected x),
         record (EvDestroy (opened (trace s1)))
           (appendedBy action success details answered s1))
    | None =>
        (Normal answered,
         set_container None
           (record (EvDestroy (opened (trace s1)))
              (appendedBy action success details answered s1)))
    end.
Proof.
  intros Hslot Hconn Hanswer. unfold auditLog.
  rewrite (withContainer_owner _ _ s1
             (fun s => (answered, record (EvAuditSettled answered) s))
             (record (EvAuditLog VNull action VNull
                        (merge (VObj [("success", VBool success)]) details))
                (registered s1))
             answered (appendedBy action success details answered s1)
             (withDefaults (opened (trace s1))) Hslot Hconn).
  - reflexivity.
  - unfold Audit_log. now rewrite Hanswer.
  - reflexivity.
  - reflexivity.
Qed.

(** A call that was driven to a settlement returned a promise first. *)
Lemma drive_inv (m : sync promise) (s : state) (o : outcome) (s' : state) :
  drive m s = (Normal o, s') ->
  exists p s0, m s = (Normal p, s0) /\ p s0 = (o, s').
Proof.
  unfold drive. destruct (m s) as [[p|e] s0]; [|discriminate].
  destruct (p s0) as [o' s1] eqn:E. intros [= <- <-]. now exists p, s0.
Qed.

Lemma force_deferred (call : sync promise) (s : state) :
  drive (force (deferred call)) s = drive call s.
Proof.
  unfold drive. cbn [force deferred]. unfold bind.
  destruct (call s) as [[p|e] s']; reflexivity.
Qed.

(** What one owning chain does to the number of handles opened. *)
Lemma chain_owner_opened (w : step) (rest : list step) (x : val) (s sf : state) :
  trace sf = trace s ++ [EvConnected (opened (trace s))]
             ++ chainEvents (w :: rest) (withDefaults (opened (trace s))) x
             ++ [EvDestroy (opened (trace s))] ->
  opened (trace sf) = S (opened (trace s)).
Proof.
  intros ->. repeat rewrite opened_app.
  destruct (chainEvents_lifecycle (w :: rest) (withDefaults (opened (trace s))) x)
    as [-> _]. cbn. lia.
Qed.

Lemma appends_app (h1 h2 : list event) : appends (h1 ++ h2) = appends h1 + appends h2.
Proof. unfold appends. now rewrite filter_app, length_app. Qed.

(** *** The runner, step by step *)

Lemma run_settles (t : Task) (s : state) (o : outcome) (s1 : state) :
  drive (force t) s = (Normal o, s1) ->
  drive (run t) s =
    match o with
    | Resolved v =>
        (Normal (Resolved
                   (VBool (write_returns Stdout
                             (inspect (serialize v) ++ newline)%string))),
         write_chunk Stdout (inspect (serialize v) ++ newline)%string s1)
    | Rejected e =>
        match diagnostic e with
        | Normal lines =>
            (Normal (Resolved VUndefined), set_exitCode 1 (write_all Stderr lines s1))
        | Throw x => (Normal (Rejected x), s1)
        end
    end.
Proof.
  intros Ht. destruct (settles_inv _ _ _ _ Ht) as (p & s0 & Hforce & Hp).
  unfold drive. rewrite run_force. unfold bind at 1. rewrite Hforce.
  cbn [run ret]. unfold then_. rewrite Hp.
  destruct o as [v|e].
  - reflexivity.
  - unfold bind. rewrite fault_runs. destruct (diagnostic e); reflexivity.
Qed.

(** ** The claims of the specification *)


(** C4, as amended. When the task run by [run] rejects with [e] and the
    guard of [fault] can be evaluated: if [e] is a problem whose status
    code is below 500 and whose message converts to a string, standard
    error receives the message and then, only when [problemDetails] is
    present, the inspection of those details, and nothing else; if the
    guard is false it receives the inspection of [e]; in both cases
    nothing goes to standard output and the exit code is set to 1. *)
Theorem run_failure_diagnostic (t : Task) (s : state) (e : val) (s1 : state)
    (terse : bool) (message : string) :
  drive (force t) s = (Normal (Rejected e), s1) ->
  userFacing e = Normal terse ->
  (terse = true -> ToString (prop e "message") = Normal message) ->
  exists sf,
    drive (run t) s = (Normal (Resolved VUndefined), sf)
    /\ stderr sf =
         stderr s1 ++
         (if terse
          then (message ++ newline)%string
               :: (if looseEqNull (prop e "problemDetails")
                   then []
                   else [(inspect (prop e "problemDetails") ++ newline)%string])
          else [(inspect e ++ newline)%string])
    /\ stdout sf = stdout s1
    /\ exitCode sf = Some 1%Z
    /\ exitStatus sf = 1%Z.
Proof.
  intros Ht Hguard Hmessage. rewrite (run_settles _ _ _ _ Ht).
  unfold diagnostic. rewrite Hguard.
  destruct terse.
  - unfold terseLines. rewrite (Hmessage eq_refl).
    eexists. split; [reflexivity|].
    cbn [stderr stdout exitCode set_exitCode exitStatus].
    rewrite stderr_write_all.
    match goal with
    | |- context [write_all Stderr ?l s1] =>
        destruct (write_all_Stderr_frame l s1) as (-> & _)
    end.
    repeat split.
  - eexists. split; [reflexivity|]. repeat split.
Qed.

(** C5. When the task run by [run] resolves with [v], standard output
    receives exactly one chunk, the inspection of the serialized value
    followed by a newline; standard error receives nothing and the exit
    code is left as it was, so the exit status stays 0 when it was unset. *)
Theorem run_success_output (t : Task) (s : state) (v : val) (s1 : state) :
  drive (force t) s = (Normal (Resolved v), s1) ->
  exists sf,
    drive (run t) s
      = (Normal (Resolved
                   (VBool (write_returns Stdout
                             (inspect (serialize v) ++ newline)%string))), sf)
    /\ stdout sf = stdout s1 ++ [(inspect (serialize v) ++ newline)%string]
    /\ stderr sf = stderr s1
    /\ exitCode sf = exitCode s1
    /\ (exitCode s1 = None -> exitStatus sf = 0%Z).
Proof.
  intros Ht. rewrite (run_settles _ _ _ _ Ht). eexists. split; [reflexivity|].
  unfold exitStatus. cbn [stdout stderr exitCode write_chunk].
  repeat split. now intros ->.
Qed.

(** C10. [run] and [auditing] call a producer once and go on with the task
    it returns: a producer that leaves a mark leaves exactly one, and
    however deeply producers are nested, running or auditing the task is
    unwrapping it to its promise and running or auditing that promise. *)
Theorem producers_are_unwrapped (action : string) (t : Task) (s : state) :
  run t s = (p <- force t;; run (InFlight p)) s
  /\ auditing action t s = (p <- force t;; auditing action (InFlight p)) s
  /\ (forall f, run (Producer f) s = (t' <- f;; run t') s
                /\ auditing action (Producer f) s = (t' <- f;; auditing action t') s)
  /\ (forall label,
        run (counted label t) s = run t (record (EvInvoke label) s)
        /\ auditing action (counted label t) s
           = auditing action t (record (EvInvoke label) s)).
Proof.
  split; [apply run_force|]. split; [apply auditing_force|].
  split; intros; split; reflexivity.
Qed.

(** C1, as amended. When the task succeeds with [v] and the audit append
    then rejects with an error that [fault] can report, the audited task
    still resolves with [v]; the failure is written to standard error, a
    note and then the fault diagnostic of the audit error, and the fault
    path sets the exit code to 1. *)
Theorem audit_failure_sets_exit_code (action : string) (t : Task) (s : state)
    (v : val) (s1 : state) (q : promise) (s2 : state) (auditError : val)
    (s3 : state) (lines : list string) :
  drive (force t) s = (Normal (Resolved v), s1) ->
  auditLog action true v s1 = (Normal q, s2) ->
  q s2 = (Rejected auditError, s3) ->
  diagnostic auditError = Normal lines ->
  exists sf,
    drive (auditing action t) s = (Normal (Resolved v), sf)
    /\ stderr sf =
         stderr s3 ++
         ("Failed to audit-log task success message!" ++ newline)%string :: lines
    /\ exitCode sf = Some 1%Z
    /\ exitStatus sf = 1%Z.
Proof.
  intros Ht Hlog Hq Hd.
  rewrite (audited_task_settles action _ _ _ _ _ _ _ _ Ht Hlog Hq).
  destruct (audited_reported (Resolved v) auditError lines s3 Hd) as (Ho & Herr & Hcode).
  rewrite Ho. eexists. split; [reflexivity|].
  unfold exitStatus. rewrite Herr, Hcode. repeat split.
Qed.

(** C2, as amended. When the call that makes the audit append returns its
    promise and that promise resolves, or rejects with an error that
    [fault] can report: whatever the task settles with, the audited task
    settles on the same branch with the same value or error as the task
    alone. *)
Theorem auditing_preserves_outcome (action : string) (t : Task) (s : state)
    (o : outcome) (s1 : state) (q : promise) (s2 : state)
    (appended : outcome) (s3 : state) :
  drive (force t) s = (Normal o, s1) ->
  auditLog action (auditSuccessFlag o) (auditDetails o) s1 = (Normal q, s2) ->
  q s2 = (appended, s3) ->
  (forall auditError, appended = Rejected auditError ->
     exists lines, diagnostic auditError = Normal lines) ->
  drive (auditing action t) s = (Normal o, snd (audited o appended s3)).
Proof.
  intros Ht Hlog Hq Hreport.
  rewrite (audited_task_settles action _ _ _ _ _ _ _ _ Ht Hlog Hq).
  destruct appended as [r|auditError]; [reflexivity|].
  destruct (Hreport auditError eq_refl) as (lines & Hd).
  destruct (audited_reported o auditError lines s3 Hd) as (-> & _).
  reflexivity.
Qed.

(** The append of a call of [auditLog] that returned, in the attempt. *)
Lemma auditAttempt_returned (action : string) (o : outcome)
    (s1 : state) (q : promise) (s2 : state) :
  auditLog action (auditSuccessFlag o) (auditDetails o) s1 = (Normal q, s2) ->
  exists pre post answered,
    auditAttempt action o s1
      = pre ++ [auditRecord action o; EvAuditSettled answered] ++ post
    /\ Forall lifecycle pre /\ Forall lifecycle post.
Proof.
  rewrite auditLog_unfold. unfold auditAttempt, auditRecord.
  destruct (container s1) as [c|] eqn:Hslot.
  - unfold Audit_log. destruct (Audit_log_answer _ _ _) as [answered|e]; [|discriminate].
    intros _. exists [], [], answered. repeat split; constructor.
  - destruct (connect_throws _) as [e|]; [discriminate|].
    unfold Audit_log.
    destruct (Audit_log_answer _ _ _) as [answered|e]; [|discriminate].
    intros _. exists [EvConnected (opened (trace s1))], [EvDestroy (opened (trace s1))],
      answered.
    repeat split; repeat constructor.
Qed.

(** C8. Whatever the attempt to append does, it is made after the inner
    task settled and is over before the audited task settles: the trace in
    which the audited task settles is the trace in which the inner task
    settled, followed by the attempt alone.  Whenever a container is at
    hand (registered, or the handle can be opened) the attempt contains the
    call of [Audit.log] with the record of the outcome; when the call of
    [auditLog] returns its promise, the record is followed by the
    settlement of the append, with only the opening and the closing of the
    handle around them, and the audited task then settles as the inner
    task did unless [fault] throws on the error of the append. *)
Theorem audit_append_between_settlements (action : string) (t : Task) (s : state)
    (o : outcome) (s1 : state) :
  drive (force t) s = (Normal o, s1) ->
  exists o' sf,
    drive (auditing action t) s = (Normal o', sf)
    /\ trace sf = trace s1 ++ auditAttempt action o s1
    /\ (container s1 <> None \/ connect_throws (trace s1) = None ->
        In (auditRecord action o) (auditAttempt action o s1))
    /\ forall q s2,
         auditLog action (auditSuccessFlag o) (auditDetails o) s1 = (Normal q, s2) ->
         (exists pre post answered,
            auditAttempt action o s1
              = pre ++ [auditRecord action o; EvAuditSettled answered] ++ post
            /\ Forall lifecycle pre /\ Forall lifecycle post)
         /\ forall appended s3,
              q s2 = (appended, s3) ->
              (forall auditError, appended = Rejected auditError ->
                 exists lines, diagnostic auditError = Normal lines) ->
              o' = o.
Proof.
  intros Ht.
  destruct (auditLog action (auditSuccessFlag o) (auditDetails o) s1)
    as [[q|e] s2] eqn:Hlog.
  - destruct (q s2) as [appended s3] eqn:Hq.
    destruct (auditLog_settles _ _ _ _ _ _ _ Hlog Hq) as (Htr & Hin & _).
    destruct (audited_frame o appended s3) as (Hframe & _).
    exists (fst (audited o appended s3)), (snd (audited o appended s3)).
    split; [exact (audited_task_settles action _ _ _ _ _ _ _ _ Ht Hlog Hq)|].
    rewrite Hframe. split; [exact Htr|]. split; [intros _; exact Hin|].
    intros q' s2' [= <- <-]. split; [exact (auditAttempt_returned _ _ _ _ _ Hlog)|].
    intros appended' s3' Hq' Hreport. rewrite Hq in Hq'. injection Hq' as <- <-.
    destruct appended as [r|auditError]; [reflexivity|].
    destruct (Hreport auditError eq_refl) as (lines & Hd).
    now destruct (audited_reported o auditError lines s3 Hd) as (-> & _).
  - destruct (auditLog_throws _ _ _ _ _ Hlog) as (Htr & Hin).
    exists (Rejected e), s2.
    split; [exact (audited_task_thrown action _ _ _ _ _ _ Ht Hlog)|].
    split; [exact Htr|]. split; [exact Hin|].
    intros q' s2' Hq'. discriminate Hq'.
Qed.


(** C6, as amended. When the construction of the context fails, the
    invocation itself throws the error of the construction: no task is
    returned, the task definition is not called and the slot is left
    empty.  Invoked through a producer, [run] and [auditing] throw it as
    well; invoked in the handler of a promise, it rejects the promise that
    [then] returned with that error. *)
Theorem construction_failure_propagates {A : Type}
    (taskdef : Container -> A -> sync promise) (args : A) (s : state) (e : val) :
  container s = None ->
  connect_throws (trace s) = Some e ->
  withContainer taskdef args s = (Throw e, record (EvConnectFailed e) s)
  /\ container (record (EvConnectFailed e) s) = None
  /\ run (deferred (withContainer taskdef args)) s
     = (Throw e, record (EvConnectFailed e) s)
  /\ (forall action,
        auditing action (deferred (withContainer taskdef args)) s
        = (Throw e, record (EvConnectFailed e) s))
  /\ forall (p : promise) (onRejected : val -> sync promise) (s0 : state) (v : val),
       p s0 = (Resolved v, s) ->
       then_ p (fun _ => withContainer taskdef args) onRejected s0
         = (Rejected e, record (EvConnectFailed e) s).
Proof.
  intros Hslot Hconn.
  assert (Hthrow : withContainer taskdef args s = (Throw e, record (EvConnectFailed e) s)).
  { unfold withContainer, bind, gets. rewrite Hslot. unfold connect. now rewrite Hconn. }
  split; [exact Hthrow|]. split; [exact Hslot|].
  split; [|split].
  - cbn [run deferred]. unfold bind. now rewrite Hthrow.
  - intros action. cbn [auditing deferred]. unfold bind. now rewrite Hthrow.
  - intros p onRejected s0 v Hp. unfold then_. rewrite Hp, Hthrow. reflexivity.
Qed.

(** C7, as amended. The teardown is taken to succeed: when [db.destroy]
    returns, the owner clears the slot and passes the outcome of the chain
    on unchanged; when it throws, the exception is not contained: the
    promise the owner returned rejects with it, and the slot is left
    registered. *)
Theorem teardown_failure_overrides_outcome {A : Type}
    (taskdef : Container -> A -> sync promise) (args : A) (s : state)
    (result : promise) (s2 : state) (o : outcome) (s3 : state) (c : Container) :
  container s = None ->
  connect_throws (trace s) = None ->
  taskdef (withDefaults (opened (trace s))) args (registered s) = (Normal result, s2) ->
  result s2 = (o, s3) ->
  container s3 = Some c ->
  (destroy_throws (db c) (trace s3) = None ->
   exists sf, drive (withContainer taskdef args) s = (Normal o, sf)
              /\ container sf = None)
  /\ (forall x, destroy_throws (db c) (trace s3) = Some x ->
      exists sf, drive (withContainer taskdef args) s = (Normal (Rejected x), sf)
                 /\ container sf = Some c).
Proof.
  intros Hslot Hconn Hdef Hres Hc.
  rewrite (withContainer_owner _ _ _ _ _ _ _ _ Hslot Hconn Hdef Hres Hc).
  split.
  - intros ->. eexists. split; reflexivity.
  - intros x ->. eexists. split; [reflexivity|exact Hc].
Qed.

(** ** Further properties of the module *)

(** X1. An owner whose task definition throws: the exception leaves the
    invocation before [cleanup] is chained, so the handle is not closed by
    it; and while the container stays registered, every later chain runs
    with it, opens nothing, closes nothing and leaves it registered. *)
Theorem taskdef_throw_leaks_container {A : Type}
    (taskdef : Container -> A -> sync promise) (args : A) (s : state)
    (e : val) (s2 : state) (c : Container) :
  container s = None ->
  connect_throws (trace s) = None ->
  taskdef (withDefaults (opened (trace s))) args (registered s) = (Throw e, s2) ->
  container s2 = Some c ->
  withContainer taskdef args s = (Throw e, s2)
  /\ forall (steps : list step) (x : val),
       exists sf,
         drive (chain steps x) s2 = (Normal (chainOutcome steps c x), sf)
         /\ trace sf = trace s2 ++ chainEvents steps c x
         /\ container sf = Some c.
Proof.
  intros Hslot Hconn Hdef Hc. split.
  - unfold withContainer, bind, gets. rewrite Hslot. unfold connect. rewrite Hconn.
    unfold modify. fold (registered s). now rewrite Hdef.
  - intros steps x.
    destruct (chain_dependent steps c x s2 Hc) as (p & Hp & Hrun).
    exists (record_all (chainEvents steps c x) s2).
    unfold drive. rewrite Hp, (Hrun _ Hc).
    split; [reflexivity|]. split; [apply trace_record_all|].
    now rewrite container_record_all.
Qed.

(** X6. When a producer, at whatever depth, throws, [run] and [auditing]
    throw what it threw, in the state it left: no promise is returned, so
    [fault] is not called, nothing is appended to the audit log and the
    exit code is not set. *)
Theorem throwing_producer_escapes (action : string) (t : Task) (s : state)
    (e : val) (s' : state) :
  force t s = (Throw e, s') ->
  run t s = (Throw e, s')
  /\ auditing action t s = (Throw e, s')
  /\ runAudited action t s = (Throw e, s').
Proof.
  intros Hforce.
  assert (Ha : auditing action t s = (Throw e, s')).
  { rewrite auditing_force. unfold bind. now rewrite Hforce. }
  split; [|split; [exact Ha|]].
  - rewrite run_force. unfold bind. now rewrite Hforce.
  - unfold runAudited, bind. now rewrite Ha.
Qed.

(** X2. When the task rejects with [e] and the audit append then rejects
    with an error that [fault] can report, the audited task still rejects
    with [e]; standard error receives the note of the failure branch and
    the fault diagnostic of the audit error, and the exit code is set to 1. *)
Theorem audit_failure_keeps_rejection (action : string) (t : Task) (s : state)
    (e : val) (s1 : state) (q : promise) (s2 : state) (auditError : val)
    (s3 : state) (lines : list string) :
  drive (force t) s = (Normal (Rejected e), s1) ->
  auditLog action false (serializableOrNull e) s1 = (Normal q, s2) ->
  q s2 = (Rejected auditError, s3) ->
  diagnostic auditError = Normal lines ->
  exists sf,
    drive (auditing action t) s = (Normal (Rejected e), sf)
    /\ stderr sf =
         stderr s1 ++
         ("Failed to audit-log task failure message!" ++ newline)%string :: lines
    /\ stdout sf = stdout s1
    /\ exitCode sf = Some 1%Z.
Proof.
  intros Ht Hlog Hq Hd.
  rewrite (audited_task_settles action _ _ _ _ _ _ _ _ Ht Hlog Hq).
  destruct (auditLog_settles action (Rejected e) _ _ _ _ _ Hlog Hq)
    as (_ & _ & Hout & Herr & _).
  destruct (audited_reported (Rejected e) auditError lines s3 Hd) as (Ho & Aerr & Acode).
  destruct (audited_frame (Rejected e) (Rejected auditError) s3) as (_ & _ & Aout).
  rewrite Ho. eexists. split; [reflexivity|].
  rewrite Aerr, Aout, Acode, Herr, Hout. repeat split.
Qed.

(** X3. [auditing] never writes to standard output, however the append
    settles; and when the append resolves, the audited task settles as the
    inner task did, nothing is written at all and the exit code is left as
    the task left it. *)
Theorem auditing_silent_when_appended (action : string) (t : Task) (s : state)
    (o : outcome) (s1 : state) (q : promise) (s2 : state)
    (appended : outcome) (s3 : state) :
  drive (force t) s = (Normal o, s1) ->
  auditLog action (auditSuccessFlag o) (auditDetails o) s1 = (Normal q, s2) ->
  q s2 = (appended, s3) ->
  exists o' sf,
    drive (auditing action t) s = (Normal o', sf)
    /\ stdout sf = stdout s1
    /\ (forall r, appended = Resolved r ->
          o' = o /\ stderr sf = stderr s1 /\ exitCode sf = exitCode s1).
Proof.
  intros Ht Hlog Hq.
  rewrite (audited_task_settles action _ _ _ _ _ _ _ _ Ht Hlog Hq).
  destruct (auditLog_settles _ _ _ _ _ _ _ Hlog Hq) as (_ & _ & Hout & Herr & Hcode).
  destruct (audited_frame o appended s3) as (_ & _ & Aout).
  do 2 eexists. split; [reflexivity|]. split; [now rewrite Aout|].
  intros r ->. cbn [audited fst snd]. repeat split; assumption.
Qed.

(** X4. An owning chain that is audited uses two contexts, one after the
    other, where the sink resolves the append: the chain's handle is
    closed before the append, and [auditLog] opens, uses and closes a
    handle of its own. *)
Theorem audited_chain_uses_two_contexts (action : string) (w : step)
    (rest : list step) (x : val) (s : state) :
  container s = None ->
  (forall h, connect_throws h = None) ->
  (forall d h, destroy_throws d h = None) ->
  (forall h a details, exists r, Audit_log_answer h a details = Normal (Resolved r)) ->
  exists r sf,
    drive (auditing action (deferred (chain (w :: rest) x))) s
      = (Normal (chainOutcome (w :: rest) (withDefaults (opened (trace s))) x), sf)
    /\ trace sf =
         trace s
         ++ [EvConnected (opened (trace s))]
         ++ chainEvents (w :: rest) (withDefaults (opened (trace s))) x
         ++ [EvDestroy (opened (trace s))]
         ++ [EvConnected (S (opened (trace s)));
             auditRecord action
               (chainOutcome (w :: rest) (withDefaults (opened (trace s))) x);
             EvAuditSettled (Resolved r);
             EvDestroy (S (opened (trace s)))]
    /\ container sf = None.
Proof.
  intros Hslot Hconn Hdestroy Haudit.
  destruct (chain_owner w rest x s Hslot (Hconn _) Hdestroy)
    as (s1 & Hrun & Htr & Hslot1 & _).
  set (o := chainOutcome (w :: rest) (withDefaults (opened (trace s))) x) in *.
  assert (Ht : drive (force (deferred (chain (w :: rest) x))) s = (Normal o, s1))
    by now rewrite force_deferred.
  destruct (Haudit (trace (registered s1)) action
              (merge (VObj [("success", VBool (auditSuccessFlag o))]) (auditDetails o)))
    as (r & Hanswer).
  pose proof (auditLog_owner action (auditSuccessFlag o) (auditDetails o) s1 (Resolved r)
                Hslot1 (Hconn _) Hanswer) as Hlog.
  rewrite Hdestroy in Hlog.
  destruct (drive_inv _ _ _ _ Hlog) as (q & s2 & Hq & Hsettle).
  exists r. eexists. split.
  - exact (audited_task_settles action _ _ _ _ _ _ _ _ Ht Hq Hsettle).
  - cbn [audited snd]. split; [|reflexivity].
    unfold appendedBy, registered.
    cbn [trace set_container record].
    rewrite (chain_owner_opened w rest x s s1 Htr), Htr.
    unfold auditRecord. repeat (rewrite <- app_assoc; cbn [app]). reflexivity.
Qed.

(** X5. The promise [run] returns resolves when the task resolves (with
    what [write] returned) and when it rejects with an error that [fault]
    can report (with [undefined]): such a failure shows in the exit code
    only.  [run] touches neither the slot nor the trace. *)
Theorem run_always_resolves (t : Task) (s : state) (o : outcome) (s1 : state) :
  drive (force t) s = (Normal o, s1) ->
  (forall e, o = Rejected e -> exists lines, diagnostic e = Normal lines) ->
  exists v sf,
    drive (run t) s = (Normal (Resolved v), sf)
    /\ v = match o with
           | Resolved value =>
               VBool (write_returns Stdout (inspect (serialize value) ++ newline)%string)
           | Rejected _ => VUndefined
           end
    /\ container sf = container s1
    /\ trace sf = trace s1
    /\ exitCode sf = match o with Resolved _ => exitCode s1 | Rejected _ => Some 1%Z end.
Proof.
  intros Ht Hreport. rewrite (run_settles _ _ _ _ Ht). destruct o as [v|e].
  - do 2 eexists. repeat split.
  - destruct (Hreport e eq_refl) as (lines & ->).
    do 2 eexists. split; [reflexivity|]. split; [reflexivity|].
    cbn [container trace exitCode set_exitCode].
    destruct (write_all_Stderr_frame lines s1) as (_ & _ & -> & ->).
    repeat split.
Qed.

(** X7. [run(auditing(action, t))], where [fault] can report the errors it
    is given: the result line goes to standard output when the task
    succeeded, also when the append failed; standard error receives first
    what the audit wrapper writes about a failed append and then the
    diagnostic of the task's own error; the exit code is left alone only
    when the task and the append both succeeded. *)
Theorem run_after_auditing (action : string) (t : Task) (s : state)
    (o : outcome) (s1 : state) (q : promise) (s2 : state)
    (appended : outcome) (s3 : state) (auditLines errorLines : list string) :
  drive (force t) s = (Normal o, s1) ->
  auditLog action (auditSuccessFlag o) (auditDetails o) s1 = (Normal q, s2) ->
  q s2 = (appended, s3) ->
  match appended with
  | Resolved _ => auditLines = []
  | Rejected auditError =>
      exists lines, diagnostic auditError = Normal lines
                    /\ auditLines = (auditFailureNote o ++ newline)%string :: lines
  end ->
  match o with
  | Resolved _ => errorLines = []
  | Rejected error => diagnostic error = Normal errorLines
  end ->
  exists v sf,
    drive (runAudited action t) s = (Normal (Resolved v), sf)
    /\ stdout sf =
         stdout s1 ++ match o with
                      | Resolved value => [(inspect (serialize value) ++ newline)%string]
                      | Rejected _ => []
                      end
    /\ stderr sf = stderr s1 ++ auditLines ++ errorLines
    /\ exitCode sf =
         match o, appended with
         | Resolved _, Resolved _ => exitCode s1
         | _, _ => Some 1%Z
         end.
Proof.
  intros Ht Hlog Hq Haudit Herror.
  pose proof (audited_task_settles action _ _ _ _ _ _ _ _ Ht Hlog Hq) as Haudited.
  destruct (auditLog_settles _ _ _ _ _ _ _ Hlog Hq) as (_ & _ & Hout & Herr & Hcode).
  assert (Hstate : fst (audited o appended s3) = o
                   /\ stdout (snd (audited o appended s3)) = stdout s1
                   /\ stderr (snd (audited o appended s3)) = stderr s1 ++ auditLines
                   /\ exitCode (snd (audited o appended s3))
                      = match appended with
                        | Resolved _ => exitCode s1
                        | Rejected _ => Some 1%Z
                        end).
  { destruct (audited_frame o appended s3) as (_ & _ & Aout).
    rewrite Aout, Hout. destruct appended as [r|auditError].
    - subst auditLines. cbn [audited fst snd]. rewrite app_nil_r. repeat split; assumption.
    - destruct Haudit as (lines & Hd & ->).
      destruct (audited_reported o auditError lines s3 Hd) as (-> & -> & ->).
      rewrite Herr. repeat split. }
  destruct Hstate as (Ao & Aout & Aerr & Acode).
  rewrite Ao in Haudited.
  destruct (drive_inv _ _ _ _ Haudited) as (p & s0 & Hp & Hsettle).
  assert (Hrun : drive (runAudited action t) s = drive (run (InFlight p)) s0).
  { unfold drive, runAudited, bind. now rewrite Hp. }
  assert (Hin : drive (force (InFlight p)) s0 = (Normal o, snd (audited o appended s3))).
  { unfold drive. cbn [force ret]. now rewrite Hsettle. }
  rewrite Hrun, (run_settles _ _ _ _ Hin).
  destruct o as [value|error].
  - subst errorLines. do 2 eexists. split; [reflexivity|].
    cbn [stdout stderr exitCode write_chunk].
    rewrite Aout, Aerr, Acode, app_nil_r.
    destruct appended; repeat split.
  - rewrite Herror. do 2 eexists. split; [reflexivity|].
    cbn [stdout stderr exitCode set_exitCode].
    rewrite stderr_write_all.
    destruct (write_all_Stderr_frame errorLines (snd (audited (Rejected error) appended s3)))
      as (-> & _).
    rewrite Aout, Aerr, app_nil_r, <- app_assoc.
    destruct appended; repeat split.
Qed.

(** X8. An append made while a container is registered uses that container:
    [auditLog] opens no handle, even where none could be opened, closes
    none and leaves the slot registered; the trace grows by the append and
    its settlement alone, and when the append resolves the audited task
    settles as the inner task did. *)
Theorem audit_in_registered_container (action : string) (t : Task) (s : state)
    (o : outcome) (s1 : state) (c : Container) (answered : outcome) :
  drive (force t) s = (Normal o, s1) ->
  container s1 = Some c ->
  Audit_log_answer (trace s1) action
    (merge (VObj [("success", VBool (auditSuccessFlag o))]) (auditDetails o))
    = Normal answered ->
  exists o' sf,
    drive (auditing action t) s = (Normal o', sf)
    /\ trace sf = trace s1 ++ [auditRecord action o; EvAuditSettled answered]
    /\ container sf = Some c
    /\ (forall r, answered = Resolved r -> o' = o).
Proof.
  intros Ht Hc Hanswer.
  assert (Hlog : auditLog action (auditSuccessFlag o) (auditDetails o) s1
                 = (Normal (fun s => (answered, record (EvAuditSettled answered) s)),
                    record (auditRecord action o) s1)).
  { unfold auditLog. rewrite (withContainer_dependent _ _ _ _ Hc).
    unfold Audit_log. now rewrite Hanswer. }
  do 2 eexists. split.
  - exact (audited_task_settles action _ _ _ _ _ _ _ _ Ht Hlog eq_refl).
  - destruct (audited_frame o answered
                (record (EvAuditSettled answered) (record (auditRecord action o) s1)))
      as (-> & -> & _).
    cbn [trace container record]. rewrite <- app_assoc.
    split; [reflexivity|]. split; [exact Hc|]. intros r ->. reflexivity.
Qed.

(** X9. How the guard of [fault] reads the status code of a problem
    ([isProblem === true]) whose message converts to a string: a missing
    [httpCode] makes the comparison false and the error is dumped; [null]
    and the booleans convert to 0 and 1 and the error is rendered tersely;
    a number is rendered tersely exactly when it is below 500. *)
Theorem fault_status_code_coercion (error : val) (s : state) (message : string) :
  strictEqTrue (prop error "isProblem") = true ->
  ToString (prop error "message") = Normal message ->
  let terse :=
    (message ++ newline)%string
    :: (if looseEqNull (prop error "problemDetails")
        then []
        else [(inspect (prop error "problemDetails") ++ newline)%string]) in
  (prop error "httpCode" = VUndefined ->
   fault error s
   = (Normal tt, set_exitCode 1 (write_all Stderr [(inspect error ++ newline)%string] s)))
  /\ (prop error "httpCode" = VNull ->
      fault error s = (Normal tt, set_exitCode 1 (write_all Stderr terse s)))
  /\ (forall b, prop error "httpCode" = VBool b ->
      fault error s = (Normal tt, set_exitCode 1 (write_all Stderr terse s)))
  /\ (forall n, prop error "httpCode" = VNum n ->
      fault error s
      = (Normal tt,
         set_exitCode 1
           (write_all Stderr
              (if (n <? 500)%Z then terse else [(inspect error ++ newline)%string]) s))).
Proof.
  intros Hproblem Hmessage terse. rewrite fault_runs.
  unfold diagnostic, userFacing, terseLines. rewrite Hproblem, Hmessage.
  repeat split.
  - intros ->. reflexivity.
  - intros ->. reflexivity.
  - intros [|] ->; reflexivity.
  - intros n ->. unfold lessThan. cbn [ToNumber]. now destruct (n <? 500)%Z.
Qed.

(** X10. When the append resolved but closing the handle [auditLog] owns
    throws an exception that [fault] can report, [auditing] treats the
    exception as a failure to audit-log: the outcome is passed on, the note
    and the fault diagnostic of the exception go to standard error, the
    exit code becomes 1, and the slot is left registered, although the
    record was appended. *)
Theorem audit_teardown_failure_is_reported (action : string) (t : Task) (s : state)
    (o : outcome) (s1 : state) (r x : val) (lines : list string) :
  drive (force t) s = (Normal o, s1) ->
  container s1 = None ->
  connect_throws (trace s1) = None ->
  Audit_log_answer (trace (registered s1)) action
    (merge (VObj [("success", VBool (auditSuccessFlag o))]) (auditDetails o))
    = Normal (Resolved r) ->
  destroy_throws (opened (trace s1))
    (trace (appendedBy action (auditSuccessFlag o) (auditDetails o) (Resolved r) s1))
    = Some x ->
  diagnostic x = Normal lines ->
  exists sf,
    drive (auditing action t) s = (Normal o, sf)
    /\ stderr sf = stderr s1 ++ (auditFailureNote o ++ newline)%string :: lines
    /\ exitCode sf = Some 1%Z
    /\ container sf = Some (withDefaults (opened (trace s1)))
    /\ trace sf = trace s1
                  ++ [EvConnected (opened (trace s1)); auditRecord action o;
                      EvAuditSettled (Resolved r); EvDestroy (opened (trace s1))].
Proof.
  intros Ht Hslot Hconn Hanswer Hdestroy Hd.
  pose proof (auditLog_owner action (auditSuccessFlag o) (auditDetails o) s1 (Resolved r)
                Hslot Hconn Hanswer) as Hlog.
  rewrite Hdestroy in Hlog.
  destruct (drive_inv _ _ _ _ Hlog) as (q & s2 & Hq & Hsettle).
  rewrite (audited_task_settles action _ _ _ _ _ _ _ _ Ht Hq Hsettle).
  match goal with
  | |- context [audited o (Rejected x) ?s3] =>
      destruct (audited_reported o x lines s3 Hd) as (Ao & Aerr & Acode);
      destruct (audited_frame o (Rejected x) s3) as (Atr & Ac & _)
  end.
  rewrite Ao. eexists. split; [reflexivity|].
  rewrite Aerr, Acode, Atr, Ac.
  unfold appendedBy, registered, auditRecord.
  cbn [stderr container trace record set_container].
  repeat (rewrite <- app_assoc; cbn [app]). repeat split.
Qed.

(** X11. One audited task makes at most one call of [Audit.log], whatever
    the database and the audit sink do; it makes exactly one when the call
    of [auditLog] returns its promise. *)
Theorem at_most_one_append (action : string) (t : Task) (s : state)
    (o : outcome) (s1 : state) :
  drive (force t) s = (Normal o, s1) ->
  exists o' sf,
    drive (auditing action t) s = (Normal o', sf)
    /\ appends (trace sf) <= S (appends (trace s1))
    /\ forall q s2,
         auditLog action (auditSuccessFlag o) (auditDetails o) s1 = (Normal q, s2) ->
         appends (trace sf) = S (appends (trace s1)).
Proof.
  intros Ht.
  assert (Hle : appends (auditAttempt action o s1) <= 1).
  { unfold auditAttempt, auditRecord.
    destruct (container s1); [destruct (Audit_log_answer _ _ _); cbn; lia|].
    destruct (connect_throws _); [cbn; lia|].
    destruct (Audit_log_answer _ _ _); cbn; lia. }
  destruct (auditLog action (auditSuccessFlag o) (auditDetails o) s1)
    as [[q|e] s2] eqn:Hlog.
  - destruct (q s2) as [appended s3] eqn:Hq.
    destruct (auditLog_settles _ _ _ _ _ _ _ Hlog Hq) as (Htr & _).
    destruct (audited_frame o appended s3) as (Hframe & _).
    exists (fst (audited o appended s3)), (snd (audited o appended s3)).
    split; [exact (audited_task_settles action _ _ _ _ _ _ _ _ Ht Hlog Hq)|].
    rewrite Hframe, Htr, appends_app.
    split; [lia|]. intros _ _ _.
    destruct (auditAttempt_returned _ _ _ _ _ Hlog)
      as (pre & post & answered & -> & Hpre & Hpost).
    repeat rewrite appends_app.
    assert (Hzero : forall h, Forall lifecycle h -> appends h = 0).
    { induction 1 as [|ev h Hev _ IH]; [reflexivity|].
      destruct ev; try contradiction; exact IH. }
    rewrite (Hzero _ Hpre), (Hzero _ Hpost). unfold auditRecord. cbn. lia.
  - destruct (auditLog_throws _ _ _ _ _ Hlog) as (Htr & _).
    exists (Rejected e), s2.
    split; [exact (audited_task_thrown action _ _ _ _ _ _ Ht Hlog)|].
    split; [|intros q' s2' Hq'; discriminate Hq'].
    rewrite Htr, appends_app. lia.
Qed.


End Properties.

(** ** The examples of the specification, and the claims at concrete inputs *)

(** A task that rejects with a problem of status 400 and message
    "Invalid input": the message goes to standard error, not a dump. *)
Example run_invalid_input :
  drive (run (collab := plain) (env := calm) failing) initial
  = (Normal (Resolved VUndefined),
     {| container := None; stdout := [];
        stderr := [("Invalid input" ++ newline)%string];
        exitCode := Some 1%Z; trace := [] |}).
Proof. reflexivity. Qed.

(** A problem of status 500 and an error that is no problem are dumped. *)
Example run_internal_problem :
  stderr (snd (drive (run (collab := plain) (env := calm)
                        (InFlight (Promise_reject internalProblem))) initial))
    = [("[Object]" ++ newline)%string]
  /\ stderr (snd (drive (run (collab := plain) (env := calm)
                           (InFlight (Promise_reject (VStr "boom")))) initial))
    = [("'boom'" ++ newline)%string]
  /\ stderr (snd (drive (run (collab := plain) (env := calm)
                           (InFlight (Promise_reject VUndefined))) initial))
    = [("undefined" ++ newline)%string].
Proof. repeat split. Qed.

(** The four combinations of the audit wrapper. *)
Example auditing_four_ways :
  fst (drive (auditing (collab := plain) (env := calm) "backup" succeeding) initial)
    = Normal (Resolved (VStr "done"))
  /\ fst (drive (auditing (collab := plain) (env := auditDown) "backup" succeeding) initial)
    = Normal (Resolved (VStr "done"))
  /\ fst (drive (auditing (collab := plain) (env := calm) "backup" failing) initial)
    = Normal (Rejected invalidInput)
  /\ fst (drive (auditing (collab := plain) (env := auditDown) "backup" failing) initial)
    = Normal (Rejected invalidInput).
Proof. repeat split. Qed.

(** The append made for a task that succeeded, by an owner of the handle. *)
Example auditing_trace :
  trace (snd (drive (auditing (collab := plain) (env := calm) "backup" succeeding) initial))
  = [EvConnected 0;
     EvAuditLog VNull "backup" VNull (VObj [("success", VBool true)]);
     EvAuditSettled (Resolved VUndefined);
     EvDestroy 0].
Proof. reflexivity. Qed.

(** A producer of a producer of a task is run as the task. *)
Example run_nested_producers :
  drive (run (collab := plain) (env := calm) (counted "outer" (counted "inner" succeeding)))
    initial
  = (Normal (Resolved (VBool true)),
     {| container := None; stdout := [("'done'" ++ newline)%string]; stderr := [];
        exitCode := None; trace := [EvInvoke "outer"; EvInvoke "inner"] |}).
Proof. reflexivity. Qed.

(** C1, as the specification states it, fails where the audit sink rejects
    the append: the task resolved and left the exit status at 0, and the
    audited task leaves it at 1. *)
Lemma audit_failure_changes_exit_status :
  ~ exitStatusSurvivesAuditFailure (collab := plain) (env := auditDown)
      "backup" succeeding initial.
Proof.
  intros Hclaim.
  destruct (Hclaim (VStr "done") initial _ _ auditOutage _ eq_refl eq_refl eq_refl)
    as (sf & Hrun & Hstatus).
  vm_compute in Hrun. injection Hrun as <-.
  vm_compute in Hstatus. discriminate Hstatus.
Qed.

Lemma audit_failure_sets_exit_code_witness :
  exists sf,
    drive (auditing (collab := plain) (env := auditDown) "backup" succeeding) initial
      = (Normal (Resolved (VStr "done")), sf)
    /\ exitCode sf = Some 1%Z
    /\ exitStatus sf = 1%Z.
Proof.
  destruct (audit_failure_sets_exit_code (collab := plain) (env := auditDown)
              "backup" succeeding initial (VStr "done") initial _ _ auditOutage _
              [("[Object]" ++ newline)%string]
              eq_refl eq_refl eq_refl eq_refl)
    as (sf & Hrun & _ & Hcode & Hstatus).
  exists sf. repeat split; assumption.
Defined.

(** C2, as the specification states it, fails where the handle cannot be
    opened for the append: the task resolved, and the audited task rejects
    with the error of the connection. *)
Lemma auditing_replaces_outcome_without_database :
  ~ auditingIsTransparent (collab := plain) (env := noDatabase)
      "backup" succeeding initial.
Proof.
  intros Hclaim.
  destruct (Hclaim (Resolved (VStr "done")) initial eq_refl) as (sf & Hrun).
  vm_compute in Hrun. discriminate Hrun.
Qed.

Lemma auditing_preserves_outcome_witness :
  exists sf,
    drive (auditing (collab := plain) (env := auditDown) "backup" failing) initial
      = (Normal (Rejected invalidInput), sf).
Proof.
  eexists.
  refine (auditing_preserves_outcome (collab := plain) (env := auditDown)
            "backup" failing initial (Rejected invalidInput) initial _ _
            (Rejected auditOutage) _ eq_refl eq_refl eq_refl _).
  intros auditError [= <-]. eexists. reflexivity.
Defined.

Lemma audit_append_between_settlements_witness :
  exists o' sf,
    drive (auditing (collab := plain) (env := calm) "backup" succeeding) initial
      = (Normal o', sf)
    /\ trace sf = [EvConnected 0;
                   auditRecord (collab := plain) "backup" (Resolved (VStr "done"));
                   EvAuditSettled (Resolved VUndefined);
                   EvDestroy 0].
Proof.
  destruct (audit_append_between_settlements (collab := plain) (env := calm)
              "backup" succeeding initial (Resolved (VStr "done")) initial eq_refl)
    as (o' & sf & Hrun & Htr & _).
  now exists o', sf.
Defined.



(** C4, as the specification states it, fails for a problem whose status
    code is an object with a [toString] of its own: [fault] throws, the
    promise of [run] rejects and the exit code is not set. *)
Lemma unreported_rejection :
  ~ everyRejectionReported (collab := plain) (env := calm) confusing initial.
Proof.
  intros Hclaim.
  destruct (Hclaim unreadableCode initial eq_refl) as (o & sf & Hrun & Hcode).
  vm_compute in Hrun. injection Hrun as _ <-.
  discriminate Hcode.
Qed.

Lemma run_failure_diagnostic_witness :
  exists sf,
    drive (run (collab := plain) (env := calm) failing) initial
      = (Normal (Resolved VUndefined), sf)
    /\ stderr sf = [("Invalid input" ++ newline)%string]
    /\ stdout sf = []
    /\ exitStatus sf = 1%Z.
Proof.
  destruct (run_failure_diagnostic (collab := plain) (env := calm) failing initial
              invalidInput initial true "Invalid input" eq_refl eq_refl (fun _ => eq_refl))
    as (sf & Hrun & Herr & Hout & _ & Hstatus).
  exists sf. repeat split; assumption.
Defined.

Lemma run_success_output_witness :
  exists sf,
    drive (run (collab := plain) (env := calm) succeeding) initial
      = (Normal (Resolved (VBool true)), sf)
    /\ stdout sf = [("'done'" ++ newline)%string]
    /\ stderr sf = []
    /\ exitStatus sf = 0%Z.
Proof.
  destruct (run_success_output (collab := plain) (env := calm) succeeding initial
              (VStr "done") initial eq_refl)
    as (sf & Hrun & Hout & Herr & _ & Hstatus).
  exists sf. repeat split; try assumption. exact (Hstatus eq_refl).
Defined.

(** C6, as the specification states it, fails where the handle cannot be
    opened: the invocation gives no task, it throws. *)
Lemma construction_failure_is_thrown :
  ~ constructionFailureIsTaskFailure (env := noDatabase)
      echo (VNum 1) initial connectionRefused.
Proof.
  intros Hclaim.
  destruct (Hclaim eq_refl eq_refl) as (p & s' & sf & Hcall & _).
  vm_compute in Hcall. discriminate Hcall.
Qed.

Lemma construction_failure_propagates_witness :
  withContainer (env := noDatabase) echo (VNum 1) initial
    = (Throw connectionRefused, record (EvConnectFailed connectionRefused) initial)
  /\ container (record (EvConnectFailed connectionRefused) initial) = None
  /\ run (collab := plain) (env := noDatabase)
       (deferred (withContainer (env := noDatabase) echo (VNum 1))) initial
     = (Throw connectionRefused, record (EvConnectFailed connectionRefused) initial).
Proof.
  destruct (construction_failure_propagates (collab := plain) (env := noDatabase)
              echo (VNum 1) initial connectionRefused eq_refl eq_refl)
    as (Hthrow & Hslot & Hrun & _).
  repeat split; assumption.
Defined.

(** C7, as the specification states it, fails where closing the handle
    throws: the chain resolved with 1 and the owner's promise rejects with
    the exception of [db.destroy]. *)
Lemma teardown_exception_not_contained :
  ~ teardownExceptionContained (env := stuckHandle) echo (VNum 1) initial.
Proof.
  intros Hclaim.
  destruct (Hclaim (Promise_resolve (VNum 1)) _ (Resolved (VNum 1)) _
              (withDefaults 0) handleStuck
              eq_refl eq_refl eq_refl eq_refl eq_refl eq_refl)
    as (sf & Hrun).
  vm_compute in Hrun. discriminate Hrun.
Qed.

Lemma teardown_failure_overrides_outcome_witness :
  exists sf,
    drive (withContainer (env := stuckHandle) echo (VNum 1)) initial
      = (Normal (Rejected handleStuck), sf)
    /\ container sf = Some (withDefaults 0).
Proof.
  exact (proj2 (teardown_failure_overrides_outcome (env := stuckHandle)
                  echo (VNum 1) initial (Promise_resolve (VNum 1)) _
                  (Resolved (VNum 1)) _ (withDefaults 0)
                  eq_refl eq_refl eq_refl eq_refl eq_refl)
               handleStuck eq_refl).
Defined.



(** ** The further properties at concrete inputs *)

Lemma taskdef_throw_leaks_container_witness :
  withContainer (env := calm) explode (VNum 1) initial
    = (Throw invalidInput, registered initial)
  /\ exists sf,
       drive (chain (env := calm) [increment] (VNum 1)) (registered initial)
         = (Normal (Resolved (VNum 2)), sf)
       /\ container sf = Some (withDefaults 0).
Proof.
  destruct (taskdef_throw_leaks_container (env := calm) explode (VNum 1) initial
              invalidInput (registered initial) (withDefaults 0)
              eq_refl eq_refl eq_refl eq_refl)
    as (Hthrow & Hlater).
  split; [exact Hthrow|].
  destruct (Hlater [increment] (VNum 1)) as (sf & Hrun & _ & Hc).
  now exists sf.
Defined.

Lemma audit_failure_keeps_rejection_witness :
  exists sf,
    drive (auditing (collab := plain) (env := auditDown) "backup" failing) initial
      = (Normal (Rejected invalidInput), sf)
    /\ stderr sf = [("Failed to audit-log task failure message!" ++ newline)%string;
                    ("[Object]" ++ newline)%string]
    /\ exitCode sf = Some 1%Z.
Proof.
  destruct (audit_failure_keeps_rejection (collab := plain) (env := auditDown)
              "backup" failing initial invalidInput initial _ _ auditOutage _
              [("[Object]" ++ newline)%string]
              eq_refl eq_refl eq_refl eq_refl)
    as (sf & Hrun & Herr & _ & Hcode).
  exists sf. repeat split; assumption.
Defined.

Lemma auditing_silent_when_appended_witness :
  exists sf,
    drive (auditing (collab := plain) (env := calm) "backup" succeeding) initial
      = (Normal (Resolved (VStr "done")), sf)
    /\ stdout sf = [] /\ stderr sf = [] /\ exitCode sf = None.
Proof.
  destruct (auditing_silent_when_appended (collab := plain) (env := calm)
              "backup" succeeding initial (Resolved (VStr "done")) initial _ _
              (Resolved VUndefined) _ eq_refl eq_refl eq_refl)
    as (o' & sf & Hrun & Hout & Hquiet).
  destruct (Hquiet VUndefined eq_refl) as (Ho & Herr & Hcode).
  exists sf. rewrite Ho in Hrun. repeat split; assumption.
Defined.

Lemma audited_chain_uses_two_contexts_witness :
  exists r sf,
    drive (auditing (collab := plain) (env := calm) "import"
             (deferred (chain (env := calm) [increment; refuse] (VNum 1)))) initial
      = (Normal (Rejected invalidInput), sf)
    /\ trace sf =
         [EvConnected 0; EvStep (withDefaults 0) (VNum 1); EvStep (withDefaults 0) (VNum 2);
          EvDestroy 0;
          EvConnected 1;
          auditRecord (collab := plain) "import" (Rejected invalidInput);
          EvAuditSettled (Resolved r);
          EvDestroy 1]
    /\ container sf = None.
Proof.
  exact (audited_chain_uses_two_contexts (collab := plain) (env := calm)
           "import" increment [refuse] (VNum 1) initial
           eq_refl (fun _ => eq_refl) (fun _ _ => eq_refl)
           (fun _ _ _ => ex_intro _ VUndefined eq_refl)).
Defined.

Lemma run_always_resolves_witness :
  exists v sf,
    drive (run (collab := plain) (env := calm) failing) initial = (Normal (Resolved v), sf)
    /\ v = VUndefined
    /\ exitCode sf = Some 1%Z.
Proof.
  assert (Hreport : forall e, Rejected invalidInput = Rejected e ->
                    exists lines, diagnostic (collab := plain) e = Normal lines).
  { intros e [= <-]. eexists. reflexivity. }
  destruct (run_always_resolves (collab := plain) (env := calm) failing initial
              (Rejected invalidInput) initial eq_refl Hreport)
    as (v & sf & Hrun & Hv & _ & _ & Hcode).
  exists v, sf. repeat split; assumption.
Defined.

Lemma throwing_producer_escapes_witness :
  run (collab := plain) (env := calm) (counted "outer" crashing) initial
    = (Throw handleStuck, record (EvInvoke "outer") initial)
  /\ auditing (collab := plain) (env := calm) "backup" (counted "outer" crashing) initial
    = (Throw handleStuck, record (EvInvoke "outer") initial).
Proof.
  destruct (throwing_producer_escapes (collab := plain) (env := calm)
              "backup" (counted "outer" crashing) initial handleStuck
              (record (EvInvoke "outer") initial) eq_refl)
    as (Hrun & Haudit & _).
  split; assumption.
Defined.

Lemma run_after_auditing_witness :
  exists v sf,
    drive (runAudited (collab := plain) (env := auditDown) "backup" succeeding) initial
      = (Normal (Resolved v), sf)
    /\ stdout sf = [("'done'" ++ newline)%string]
    /\ stderr sf = [("Failed to audit-log task success message!" ++ newline)%string;
                    ("[Object]" ++ newline)%string]
    /\ exitCode sf = Some 1%Z.
Proof.
  refine (run_after_auditing (collab := plain) (env := auditDown)
            "backup" succeeding initial (Resolved (VStr "done")) initial _ _
            (Rejected auditOutage) _
            [("Failed to audit-log task success message!" ++ newline)%string;
             ("[Object]" ++ newline)%string]
            [] eq_refl eq_refl eq_refl _ eq_refl).
  exists [("[Object]" ++ newline)%string]. split; reflexivity.
Defined.

Lemma audit_in_registered_container_witness :
  exists o' sf,
    drive (auditing (collab := plain) (env := noDatabase) "backup" succeeding)
      (registered initial)
      = (Normal o', sf)
    /\ trace sf = [EvConnected 0;
                   auditRecord (collab := plain) "backup" (Resolved (VStr "done"));
                   EvAuditSettled (Resolved VUndefined)]
    /\ container sf = Some (withDefaults 0).
Proof.
  destruct (audit_in_registered_container (collab := plain) (env := noDatabase)
              "backup" succeeding (registered initial) (Resolved (VStr "done"))
              (registered initial) (withDefaults 0) (Resolved VUndefined)
              eq_refl eq_refl eq_refl)
    as (o' & sf & Hrun & Htr & Hc & _).
  now exists o', sf.
Defined.

Lemma fault_status_code_coercion_witness :
  fault (collab := plain) (env := calm) codeless initial
  = (Normal tt,
     set_exitCode 1 (write_all Stderr [("[Object]" ++ newline)%string] initial)).
Proof.
  exact (proj1 (fault_status_code_coercion (collab := plain) (env := calm)
                  codeless initial "No code" eq_refl eq_refl)
           eq_refl).
Defined.

Lemma audit_teardown_failure_is_reported_witness :
  exists sf,
    drive (auditing (collab := plain) (env := stuckHandle) "backup" succeeding) initial
      = (Normal (Resolved (VStr "done")), sf)
    /\ stderr sf = [("Failed to audit-log task success message!" ++ newline)%string;
                    ("[Object]" ++ newline)%string]
    /\ exitCode sf = Some 1%Z
    /\ container sf = Some (withDefaults 0).
Proof.
  destruct (audit_teardown_failure_is_reported (collab := plain) (env := stuckHandle)
              "backup" succeeding initial (Resolved (VStr "done")) initial
              VUndefined handleStuck [("[Object]" ++ newline)%string]
              eq_refl eq_refl eq_refl eq_refl eq_refl eq_refl)
    as (sf & Hrun & Herr & Hcode & Hc & _).
  exists sf. repeat split; assumption.
Defined.

Lemma at_most_one_append_witness :
  exists o' sf,
    drive (auditing (collab := plain) (env := noDatabase) "backup" succeeding) initial
      = (Normal o', sf)
    /\ appends (trace sf) <= 1.
Proof.
  destruct (at_most_one_append (collab := plain) (env := noDatabase)
              "backup" succeeding initial (Resolved (VStr "done")) initial eq_refl)
    as (o' & sf & Hrun & Hcount & _).
  now exists o', sf.
Defined.

